(** * The resilient HTTP dispatch layer of nidhz_ultimate

    A shallow embedding of [src/nidhz_ultimate/utils/http_client.py]
    (class [HTTPClient]) together with the parts of the two libraries it
    configures and calls: urllib3's [Retry] policy and [urlopen] loop, and
    requests' [HTTPAdapter.send] and [Session.request] (urllib3 1.26 and
    requests 2.32; the functions keep the libraries' names).

    - Python dictionaries ([kwargs], header and proxy tables) are [gmap]s
      with string keys.
    - Durations that the code only compares, multiplies by powers of two and
      hands to [time.sleep] are exact rationals ([Q]).
    - The network is a script [net]: the [i]-th transport attempt of a run
      gets the outcome [net i].  Every effect is recorded in a trace.
    - Python exceptions are classes with their base classes; an [except C]
      clause catches the instances of the subclasses of [C].
    - The surroundings of a run are those of a plain installation: no proxy
      or certificate variables in the process environment and no [.netrc]
      (requests consults them, [trust_env]), and the certificate bundle that
      requests ships with in its place. *)

From Stdlib Require Import ZArith QArith Qminmax Lia Ascii.
From stdpp Require Import base option list gmap strings.

Set Warnings "-clear-no-such-hyp".

Local Open Scope Z_scope.
Local Open Scope string_scope.
Local Open Scope list_scope.

(** ** Python values that occur as keyword arguments *)

Inductive pyval :=
  | PNone
  | PBool (b : bool)
  | PInt (z : Z)
  | PFloat (q : Q)
  | PStr (s : string)
  | PDict (d : gmap string string).

Global Instance Q_eq_dec : EqDecision Q.
Proof. solve_decision. Defined.

Global Instance pyval_eq_dec : EqDecision pyval.
Proof. solve_decision. Defined.

(** Python's truth value testing ([if x], [x or y], [bool(x)]). *)
Definition truthy (v : pyval) : bool :=
  match v with
  | PNone => false
  | PBool b => b
  | PInt z => negb (Z.eqb z 0)
  | PFloat q => negb (Qeq_bool q 0)
  | PStr s => negb (String.eqb s "")
  | PDict d => negb (bool_decide (d = ∅))
  end.

(** [x or y] on an optional string ([None] and the empty string are falsy). *)
Definition str_or (x : option string) (y : string) : string :=
  match x with
  | Some s => if String.eqb s "" then y else s
  | None => y
  end.

(** [str.lower] and [str.upper] on ASCII letters. *)
Definition lower_ascii (c : Ascii.ascii) : Ascii.ascii :=
  let n := Ascii.nat_of_ascii c in
  if (65 <=? n)%nat && (n <=? 90)%nat then Ascii.ascii_of_nat (n + 32) else c.

Fixpoint lower (s : string) : string :=
  match s with
  | EmptyString => EmptyString
  | String c r => String (lower_ascii c) (lower r)
  end.

Definition upper_ascii (c : Ascii.ascii) : Ascii.ascii :=
  let n := Ascii.nat_of_ascii c in
  if (97 <=? n)%nat && (n <=? 122)%nat then Ascii.ascii_of_nat (n - 32) else c.

Fixpoint upper (s : string) : string :=
  match s with
  | EmptyString => EmptyString
  | String c r => String (upper_ascii c) (upper r)
  end.

(** [dict.setdefault(k, v)]: the key keeps its value when present. *)
Definition setdefault (k : string) (v : pyval) (d : gmap string pyval)
  : gmap string pyval :=
  match d !! k with
  | Some _ => d
  | None => <[k := v]> d
  end.

(** [dict.update(other)]: entries of [other] win. *)
Definition update (d other : gmap string string) : gmap string string :=
  other ∪ d.

(** [CaseInsensitiveDict.update(other)], for header tables: requests keeps
    them keyed by the lower-cased header name, and so does the model. *)
Definition lower_keys (l : list (string * string)) : list (string * string) :=
  (fun kv => (lower (fst kv), snd kv)) <$> l.

Definition ci_update (d other : gmap string string) : gmap string string :=
  list_to_map (lower_keys (map_to_list other)) ∪ d.

(** ** Exception classes *)

Inductive pyclass :=
  (* builtins *)
  | BaseException | KeyboardInterrupt | SystemExit | Exception
  | TypeError | ValueError | OSError | RecursionError | AttributeError
  (* requests.exceptions *)
  | RequestException | ConnectionError | ProxyError | SSLError
  | Timeout | ConnectTimeout | ReadTimeout | TooManyRedirects
  | RetryError | InvalidHeader
  (* urllib3.exceptions (its SSLError, ProxyError and InvalidHeader are
     U3SSLError, U3ProxyError and U3InvalidHeader here, requests has classes
     of the same names) *)
  | HTTPError | MaxRetryError | TimeoutError | ConnectTimeoutError
  | NewConnectionError | ReadTimeoutError | ProtocolError | ResponseError
  | U3SSLError | U3ProxyError | ClosedPoolError | U3InvalidHeader
  (* http.client and ssl *)
  | HTTPException | BaseSSLError.

Global Instance pyclass_eq_dec : EqDecision pyclass.
Proof. solve_decision. Defined.

(** The direct base classes, as the class statements of the two libraries
    and of Python give them. *)
Definition bases (c : pyclass) : list pyclass :=
  match c with
  | BaseException => []
  | KeyboardInterrupt | SystemExit | Exception => [BaseException]
  | TypeError | ValueError | OSError | RecursionError | AttributeError =>
      [Exception]
  | RequestException => [OSError]
  | ConnectionError | Timeout | TooManyRedirects | RetryError =>
      [RequestException]
  | ProxyError | SSLError => [ConnectionError]
  | ConnectTimeout => [ConnectionError; Timeout]
  | ReadTimeout => [Timeout]
  | InvalidHeader => [RequestException; ValueError]
  | HTTPError => [Exception]
  | MaxRetryError | TimeoutError | ProtocolError | ResponseError
  | U3SSLError | U3ProxyError | ClosedPoolError | U3InvalidHeader =>
      [HTTPError]
  | HTTPException => [Exception]
  | BaseSSLError => [OSError]
  | ConnectTimeoutError => [TimeoutError]
  | NewConnectionError => [ConnectTimeoutError]
  | ReadTimeoutError => [TimeoutError]
  end.

(** [issubclass c d], following [bases] upwards (the hierarchy is at most
    six classes deep). *)
Fixpoint issubclass_upto (depth : nat) (c d : pyclass) : bool :=
  bool_decide (c = d) ||
  match depth with
  | O => false
  | S n => existsb (fun b => issubclass_upto n b d) (bases c)
  end.

Definition issubclass (c d : pyclass) : bool := issubclass_upto 6 c d.

(** An exception instance: its class and, for the exceptions that wrap
    another one ([MaxRetryError.reason], [ProxyError.original_error]), the
    class of the wrapped one. *)
Record exn := { cls : pyclass; reason : option pyclass }.

Definition exc (c : pyclass) : exn := {| cls := c; reason := None |}.
Definition exc_from (c r : pyclass) : exn := {| cls := c; reason := Some r |}.

Definition isinstance (e : exn) (c : pyclass) : bool := issubclass (cls e) c.

(** ** Results of calls that may raise *)

Inductive res (A : Type) :=
  | Ret (a : A)
  | Raise (e : exn).
Arguments Ret {A} a.
Arguments Raise {A} e.

(** ** Requests, responses and the scripted network *)

Inductive Scheme := http | https.

Global Instance Scheme_eq_dec : EqDecision Scheme.
Proof. solve_decision. Defined.

Definition scheme_str (s : Scheme) : string :=
  match s with http => "http" | https => "https" end.

(** An absolute http or https URL; [port] is the port that the URL names,
    when it names one. *)
Record Url := {
  scheme : Scheme;
  host : string;
  port : option Z;
  path : string
}.

(** The value of a [Retry-After] header as [Retry.parse_retry_after] reads
    it: a number of seconds (digits, or an HTTP date, which stands for the
    seconds from now to that date and is negative for a date in the past),
    text that is neither, or nothing at all. *)
Inductive RetryAfter :=
  | After (seconds : Q)
  | Malformed
  | Blank.

(** An answer of the target, received in full: what urllib3 reads off the
    wire ([urllib3.response.HTTPResponse]), and the reading of the clock
    that goes with it. *)
Record HTTPResponse := {
  status : Z;
  (* the [Retry-After] header, when the answer has one *)
  retry_after : option RetryAfter;
  (* the [Location] header, resolved to an absolute URL; [None] when the
     header is missing or empty *)
  location : option Url;
  (* not on the wire: what [Session.send] measures around the call of
     [adapter.send] that returns with this answer, in microseconds; the
     attempts, retries and sleeps of that call are all in it.  The script
     supplies the reading together with the answer. *)
  measured_us : Z
}.

(** [Response.elapsed]: requests stores a [timedelta]; the dispatcher
    replaces it by a plain number of seconds. *)
Inductive elapsed_t :=
  | Timedelta (microseconds : Z)
  | Seconds (s : Q).

Definition total_seconds (microseconds : Z) : Q :=
  inject_Z microseconds / inject_Z 1000000.

(** [requests.Response] *)
Record Response := {
  status_code : Z;
  resp_url : Url;
  elapsed : elapsed_t;
  raw_response : HTTPResponse
}.

(** What one transport attempt (urllib3's [_make_request]) yields: the
    server's answer, or an exception raised while talking to it. *)
Inductive raw :=
  | Answer (r : HTTPResponse)
  | Fault (e : pyclass).

Inductive event :=
  (* [time.sleep(d)] *)
  | EvSleep (d : Q)
  (* [Session.request(method, url, **kw)] is entered *)
  | EvRequest (method : string) (url : Url) (kw : gmap string pyval)
  (* one transport attempt, with the request headers it carries *)
  | EvSend (method : string) (url : Url) (hdrs : gmap string string).

Definition is_send (e : event) : bool :=
  match e with EvSend _ _ _ => true | _ => false end.

Definition sends (tr : list event) : nat := length (filter is_send tr).

Definition sleeps (tr : list event) : list Q :=
  omap (fun e => match e with EvSleep d => Some d | _ => None end) tr.

(** ** urllib3: the [Retry] policy ([urllib3/util/retry.py])

    The counters [connect], [read], [redirect], [status] and [other] of a
    [Retry] stay [None] under the constructor call of [HTTPClient.__init__]
    and are left out; [total] is the one counter in use. *)

Record RequestHistory := {
  h_method : string;
  h_url : Url;
  h_error : option pyclass;
  h_status : option Z;
  redirect_location : option Url
}.

Record Retry := {
  total : Z;
  backoff_factor : Q;
  status_forcelist : list Z;
  allowed_methods : list string;
  history : list RequestHistory;
  raise_on_status : bool;
  respect_retry_after_header : bool
}.

Definition RETRY_AFTER_STATUS_CODES : list Z := [413; 429; 503].
Definition DEFAULT_BACKOFF_MAX : Q := 120.
Definition REDIRECT_STATUSES : list Z := [301; 302; 303; 307; 308].

Definition mem_Z (x : Z) (l : list Z) : bool := existsb (Z.eqb x) l.
Definition mem_str (x : string) (l : list string) : bool :=
  existsb (String.eqb x) l.

Definition _is_method_retryable (r : Retry) (method : string) : bool :=
  match allowed_methods r with
  | [] => true
  | ms => mem_str (upper method) ms
  end.

Definition is_retry (r : Retry) (method : string) (status : Z)
    (has_retry_after : bool) : bool :=
  if negb (_is_method_retryable r method) then false
  else if negb (bool_decide (status_forcelist r = []))
          && mem_Z status (status_forcelist r) then true
  else negb (Z.eqb (total r) 0) && respect_retry_after_header r
       && has_retry_after && mem_Z status RETRY_AFTER_STATUS_CODES.

(** [filter(None, retry_counts)] drops the counters that are [None] or 0. *)
Definition is_exhausted (r : Retry) : bool :=
  match List.filter (fun c => negb (Z.eqb c 0)) [total r] with
  | [] => false
  | c :: cs => Z.ltb (fold_right Z.min c cs) 0
  end.

Fixpoint takewhile {A} (p : A -> bool) (l : list A) : list A :=
  match l with
  | [] => []
  | x :: r => if p x then x :: takewhile p r else []
  end.

Definition consecutive_errors_len (r : Retry) : nat :=
  length (takewhile (fun h => negb (bool_decide (is_Some (redirect_location h))))
                    (rev (history r))).

Definition get_backoff_time (r : Retry) : Q :=
  let n := consecutive_errors_len r in
  if (n <=? 1)%nat then 0
  else Qmin DEFAULT_BACKOFF_MAX
            (backoff_factor r * inject_Z (2 ^ (Z.of_nat n - 1))).

Definition _is_connection_error (e : exn) : bool :=
  let c := if isinstance e U3ProxyError
           then default (cls e) (reason e) else cls e in
  issubclass c ConnectTimeoutError.

Definition _is_read_error (e : exn) : bool :=
  isinstance e ReadTimeoutError || isinstance e ProtocolError.

(** The response headers as urllib3 reads them. *)
Definition get_redirect_location (resp : HTTPResponse) : option Url :=
  if mem_Z (status resp) REDIRECT_STATUSES then location resp else None.

(** [Retry.increment]: a new [Retry] with one retry less, or the
    exception it raises. *)
Definition increment (r : Retry) (method : string) (url : Url)
    (response : option HTTPResponse) (error : option exn) : res Retry :=
  let reraise :=
    match error with
    | Some e =>
        if _is_connection_error e then false
        else if _is_read_error e then negb (_is_method_retryable r method)
        else false
    | None => false
    end in
  match error, reraise with
  | Some e, true => Raise e
  | _, _ =>
      let redirect :=
        match error, response with
        | None, Some resp => get_redirect_location resp
        | _, _ => None
        end in
      let status :=
        match error, response with
        | None, Some resp => Some (status resp)
        | _, _ => None
        end in
      let cause :=
        match error with Some e => cls e | None => ResponseError end in
      let new_retry :=
        {| total := total r - 1;
           backoff_factor := backoff_factor r;
           status_forcelist := status_forcelist r;
           allowed_methods := allowed_methods r;
           history := history r ++
             [ {| h_method := method; h_url := url;
                  h_error := cls <$> error; h_status := status;
                  redirect_location := redirect |} ];
           raise_on_status := raise_on_status r;
           respect_retry_after_header := respect_retry_after_header r |} in
      if is_exhausted new_retry then Raise (exc_from MaxRetryError cause)
      else Ret new_retry
  end.

(** ** The client object and the state of a run *)

(** ** The connection pools of the adapter

    [HTTPAdapter.get_connection_with_tls_context] takes the pool for a
    request from the adapter's [PoolManager] or, when a proxy applies, from
    the [ProxyManager] of that proxy.  A manager keeps one pool per key. *)

(** Where the connections of a pool go: to the origin server, or, for
    [http] URLs behind an HTTP proxy, to the proxy itself. *)
Inductive Endpoint :=
  | Origin (s : Scheme) (h : string) (p : Z)
  | TheProxy.

(** What [_urllib3_request_context] derives from [verify]. *)
Inductive TLS :=
  | CertNone                      (* [verify is False] *)
  | CertDefault                   (* [verify is True]: the preloaded context *)
  | CertBundle (path : string)    (* a string: [ca_certs] or [ca_cert_dir] *)
  | CertRequired.

Record PoolKey := {
  (* the manager: the proxy of a [ProxyManager], [None] for the adapter's
     own [PoolManager] *)
  via : option string;
  endpoint : Endpoint;
  tls : TLS;
  (* [cert_file], when the call names a client certificate *)
  client_cert : option pyval
}.

Global Instance Endpoint_eq_dec : EqDecision Endpoint.
Proof. solve_decision. Defined.

Global Instance TLS_eq_dec : EqDecision TLS.
Proof. solve_decision. Defined.

Global Instance PoolKey_eq_dec : EqDecision PoolKey.
Proof. solve_decision. Defined.

(** [requests.Session] with the one [HTTPAdapter] that [HTTPClient.__init__]
    mounts for both schemes.  [poolmanager] lists the keys of the connection
    pools that the adapter holds, in its pool manager and in its proxy
    managers, most recently used first. *)
Record Session := {
  headers : gmap string string;
  proxies : gmap string string;
  verify : bool;
  max_redirects : nat;
  max_retries : Retry;
  pool_connections : nat;
  poolmanager : list PoolKey
}.

Record HTTPClient := {
  timeout : Z;
  delay : Q;
  retries : Z;
  verify_ssl : bool;
  session : Session
}.

(** The client object (Python mutates it in place), what has happened so
    far, and [room]: the number of nested calls of [urlopen] for which the
    interpreter's recursion limit leaves room in every exchange of a call of
    [get] or [post], the exchanges that follow a redirect included (they
    start a few frames deeper than the first one). *)
Record State := {
  self : HTTPClient;
  trace : list event;
  room : nat
}.

Definition log (e : event) (st : State) : State :=
  {| self := self st; trace := trace st ++ [e]; room := room st |}.

Definition set_session (s : Session) (st : State) : State :=
  {| self := {| timeout := timeout (self st); delay := delay (self st);
                retries := retries (self st);
                verify_ssl := verify_ssl (self st); session := s |};
     trace := trace st; room := room st |}.

Definition set_poolmanager (p : list PoolKey) (s : Session) : Session :=
  {| headers := headers s; proxies := proxies s; verify := verify s;
     max_redirects := max_redirects s; max_retries := max_retries s;
     pool_connections := pool_connections s; poolmanager := p |}.

(** [time.sleep(d)] *)
Definition time_sleep (d : Q) (st : State) : State := log (EvSleep d) st.

(** ** urllib3: sleeping between attempts and the [urlopen] loop *)

Definition Qpos (q : Q) : bool := negb (Qle_bool q 0).

(** [Retry.parse_retry_after]: seconds that lie in the past count as 0;
    what is neither a number nor a date raises urllib3's [InvalidHeader]. *)
Definition parse_retry_after (h : RetryAfter) : res Q :=
  match h with
  | After seconds => Ret (if negb (Qle_bool 0 seconds) then 0%Q else seconds)
  | Malformed | Blank => Raise (exc U3InvalidHeader)
  end.

(** [Retry.get_retry_after] *)
Definition get_retry_after (response : HTTPResponse) : res (option Q) :=
  match retry_after response with
  | None => Ret None
  | Some h =>
      match parse_retry_after h with
      | Ret seconds => Ret (Some seconds)
      | Raise e => Raise e
      end
  end.

(** [bool(response.headers.get("Retry-After"))] in [urlopen] *)
Definition has_retry_after (response : HTTPResponse) : bool :=
  match retry_after response with
  | Some (After _) | Some Malformed => true
  | Some Blank | None => false
  end.

(** [Retry.sleep_for_retry]: [True] when it slept. *)
Definition sleep_for_retry (response : HTTPResponse) (st : State)
  : res bool * State :=
  match get_retry_after response with
  | Raise e => (Raise e, st)
  | Ret (Some s) =>
      if negb (Qeq_bool s 0) then (Ret true, time_sleep s st)
      else (Ret false, st)
  | Ret None => (Ret false, st)
  end.

Definition _sleep_backoff (r : Retry) (st : State) : State :=
  let backoff := get_backoff_time r in
  if Qle_bool backoff 0 then st else time_sleep backoff st.

(** [Retry.sleep(response)] *)
Definition sleep (r : Retry) (response : option HTTPResponse) (st : State)
  : res unit * State :=
  match response with
  | Some resp =>
      if respect_retry_after_header r then
        match sleep_for_retry resp st with
        | (Raise e, st') => (Raise e, st')
        | (Ret true, st') => (Ret tt, st')
        | (Ret false, st') => (Ret tt, _sleep_backoff r st')
        end
      else (Ret tt, _sleep_backoff r st)
  | None => (Ret tt, _sleep_backoff r st)
  end.

(** The [except] clause of [urlopen]: the exception classes it handles. *)
Definition urlopen_catches (e : exn) : bool :=
  isinstance e TimeoutError || isinstance e HTTPException
  || isinstance e OSError || isinstance e ProtocolError
  || isinstance e BaseSSLError || isinstance e U3SSLError.

(** ... and how it wraps what it caught ([has_proxy]: the pool goes through
    a proxy). *)
Definition urlopen_wrap (has_proxy : bool) (e : exn) : exn :=
  if isinstance e BaseSSLError then exc_from U3SSLError (cls e)
  else if (isinstance e OSError || isinstance e NewConnectionError) && has_proxy
       then exc_from U3ProxyError (cls e)
  else if isinstance e OSError || isinstance e HTTPException
       then exc_from ProtocolError (cls e)
  else e.

Section Network.

(** The scripted network: the outcome of the [i]-th transport attempt. *)
Variable net : nat -> raw.

(** [HTTPConnectionPool.urlopen], called by requests with [redirect=False].
    Each retry is a recursive call, as in the library, and [depth] is the
    room that the interpreter has left for such calls: the call that finds
    none raises [RecursionError]. *)
Fixpoint urlopen (depth : nat) (has_proxy : bool) (method : string) (url : Url)
    (hdrs : gmap string string) (r : Retry) (st : State)
  : res HTTPResponse * State :=
  match depth with
  | O => (Raise (exc RecursionError), st)
  | S depth' =>
      let outcome := net (sends (trace st)) in
      let st := log (EvSend method url hdrs) st in
      match outcome with
      | Fault c =>
          let e := exc c in
          if urlopen_catches e then
            let e := urlopen_wrap has_proxy e in
            match increment r method url None (Some e) with
            | Raise x => (Raise x, st)
            | Ret r' =>
                match sleep r' None st with
                | (Raise x, st) => (Raise x, st)
                | (Ret _, st) =>
                    urlopen depth' has_proxy method url hdrs r' st
                end
            end
          else (Raise e, st)
      | Answer response =>
          if is_retry r method (status response) (has_retry_after response) then
            match increment r method url (Some response) None with
            | Raise x =>
                if raise_on_status r then (Raise x, st) else (Ret response, st)
            | Ret r' =>
                match sleep r' (Some response) st with
                | (Raise x, st) => (Raise x, st)
                | (Ret _, st) =>
                    urlopen depth' has_proxy method url hdrs r' st
                end
            end
          else (Ret response, st)
      end
  end.

End Network.

(** ** requests: [HTTPAdapter] and [Session] *)

Definition REDIRECT_STATI : list Z := [301; 302; 303; 307; 308].
Definition DEFAULT_REDIRECT_LIMIT : nat := 30.

(** The parameters of [Session.request] besides [method] and [url]. *)
Definition request_params : list string :=
  [ "params"; "data"; "headers"; "cookies"; "files"; "auth"; "timeout";
    "allow_redirects"; "proxies"; "hooks"; "stream"; "verify"; "cert"; "json" ].

(** Every keyword is a parameter of [Session.request]; with any other
    keyword the call raises [TypeError]. *)
Definition accepted (kw : gmap string pyval) : bool :=
  forallb (fun k => mem_str k request_params) (map fst (map_to_list kw)).

(** [merge_setting(request.headers, self.headers, CaseInsensitiveDict)] in
    [Session.prepare_request], then [PreparedRequest.prepare_headers].  A
    dict is merged into the session's headers.  Any other value but [None]
    takes the place of the merged headers as it is: [prepare_headers] then
    calls its [items()], which raises, unless the value is falsy, and in
    that case the request goes out without any of the session's headers. *)
Definition prepare_headers (s : Session) (request_headers : option pyval)
  : res (gmap string string) :=
  match request_headers with
  | None | Some PNone => Ret (ci_update (headers s) ∅)
  | Some (PDict d) => Ret (ci_update (headers s) d)
  | Some v => if truthy v then Raise (exc AttributeError) else Ret ∅
  end.

(** [proxies = proxies or {}], then [proxies.get("no_proxy")] in
    [merge_environment_settings]: a truthy value that is no dict raises. *)
Definition request_proxies (proxies : option pyval)
  : res (gmap string string) :=
  match proxies with
  | None => Ret ∅
  | Some (PDict d) => Ret d
  | Some v => if truthy v then Raise (exc AttributeError) else Ret ∅
  end.

(** The keyword arguments with which [Session.send] calls
    [HTTPAdapter.send], as far as the model reads them. *)
Record SendOptions := {
  o_timeout : pyval;
  o_verify : pyval;
  o_cert : pyval;
  o_proxies : gmap string string
}.

(** [Session.request] builds them from its own arguments:
    [merge_environment_settings] merges [proxies], [verify] and [cert] with
    the session's. *)
Definition send_options (s : Session) (kw : gmap string pyval)
    (proxies_given : gmap string string) : SendOptions :=
  {| o_timeout := default PNone (kw !! "timeout");
     o_verify := match kw !! "verify" with
                 | None | Some PNone => PBool (verify s)
                 | Some v => v
                 end;
     o_cert := default PNone (kw !! "cert");
     o_proxies := update (proxies s) proxies_given |}.

(** [urllib3.util.Timeout._validate_timeout], through the [TimeoutSauce]
    that [HTTPAdapter.send] builds: [None] or a number above 0, and no
    [bool]; anything else raises [ValueError]. *)
Definition valid_timeout (v : pyval) : bool :=
  match v with
  | PNone => true
  | PInt z => Z.ltb 0 z
  | PFloat q => Qpos q
  | PBool _ | PStr _ | PDict _ => false
  end.

(** [requests.utils.select_proxy] *)
Definition select_proxy (url : Url) (px : gmap string string) : option string :=
  let sc := scheme_str (scheme url) in
  match px !! (sc ++ "://" ++ host url)%string with
  | Some p => Some p
  | None =>
  match px !! sc with
  | Some p => Some p
  | None =>
  match px !! ("all://" ++ host url)%string with
  | Some p => Some p
  | None => px !! "all"
  end end end.

(** The port of a pool key: the URL's, or the default of the scheme
    ([port_by_scheme]). *)
Definition pool_port (u : Url) : Z :=
  let by_scheme := match scheme u with http => 80 | https => 443 end in
  match port u with
  | Some p => if Z.eqb p 0 then by_scheme else p
  | None => by_scheme
  end.

Definition pool_tls (verify : pyval) : TLS :=
  match verify with
  | PBool false => CertNone
  | PBool true => CertDefault
  | PStr ca => CertBundle ca
  | _ => CertRequired
  end.

(** [proxy.lower().startswith("socks")] in [proxy_manager_for] *)
Definition is_socks (proxy : string) : bool :=
  String.prefix "socks" (lower proxy).

(** The key of the pool for a request.  Behind an HTTP proxy the pool for
    an [http] URL is the one to the proxy ([ProxyManager.connection_from_host]);
    a SOCKS proxy manager keeps pools per origin, like the pool manager. *)
Definition pool_key (o : SendOptions) (u : Url) : PoolKey :=
  let proxy := select_proxy u (o_proxies o) in
  let origin := Origin (scheme u) (lower (host u)) (pool_port u) in
  {| via := proxy;
     endpoint :=
       match proxy with
       | Some p =>
           if is_socks p then origin
           else match scheme u with https => origin | http => TheProxy end
       | None => origin
       end;
     tls := pool_tls (o_verify o);
     client_cert := match o_cert o with PNone => None | c => Some c end |}.

(** [PoolManager.connection_from_host]: within its manager the pool of the
    key becomes the most recently used one, and the least recently used
    pools beyond [pool_connections] are dropped; the pools of the other
    managers stay. *)
Definition connection_from_host (key : PoolKey) (s : Session) : Session :=
  let same := fun k : PoolKey => bool_decide (via k = via key) in
  let mine := List.filter same (poolmanager s) in
  let others := List.filter (fun k => negb (same k)) (poolmanager s) in
  set_poolmanager
    (take (pool_connections s)
          (key :: List.filter (fun k => negb (bool_decide (k = key))) mine)
     ++ others)
    s.

(** [HTTPAdapter.close]: [clear()] on the pool manager and on every proxy
    manager *)
Definition adapter_close (s : Session) : Session := set_poolmanager [] s.

(** The [except] clauses of [HTTPAdapter.send], in their order. *)
Definition adapter_except (e : exn) : exn :=
  if isinstance e ProtocolError || isinstance e OSError then exc ConnectionError
  else if isinstance e MaxRetryError then
    let r := default Exception (reason e) in
    if issubclass r ConnectTimeoutError && negb (issubclass r NewConnectionError)
    then exc ConnectTimeout
    else if issubclass r ResponseError then exc RetryError
    else if issubclass r U3ProxyError then exc ProxyError
    else if issubclass r U3SSLError then exc SSLError
    else exc ConnectionError
  else if isinstance e ClosedPoolError then exc ConnectionError
  else if isinstance e U3ProxyError then exc ProxyError
  else if isinstance e U3SSLError || isinstance e HTTPError then
    if isinstance e U3SSLError then exc SSLError
    else if isinstance e ReadTimeoutError then exc ReadTimeout
    else if isinstance e U3InvalidHeader then exc InvalidHeader
    else e
  else e.

(** [Session.rebuild_method] *)
Definition rebuild_method (method : string) (st_code : Z) : string :=
  if Z.eqb st_code 303 && negb (String.eqb method "HEAD") then "GET"
  else if Z.eqb st_code 302 && negb (String.eqb method "HEAD") then "GET"
  else if Z.eqb st_code 301 && String.eqb method "POST" then "GET"
  else method.

(** [Session.get_redirect_target], from [Response.is_redirect] *)
Definition get_redirect_target (resp : Response) : option Url :=
  if mem_Z (status_code resp) REDIRECT_STATI
  then location (raw_response resp) else None.

Section Requests.

Variable net : nat -> raw.

(** [HTTPAdapter.send], as [Session.send] calls it: take the pool of the
    URL, check the timeout, run [urlopen] under the adapter's [Retry],
    translate urllib3's exceptions, build the response.  The [ValueError] of
    a timeout that is no number above 0 is raised before [urlopen] is
    called, outside the [try].  [elapsed] is what [Session.send] stores in
    the response once the adapter has returned: the time it measured around
    the whole call. *)
Definition HTTPAdapter_send (o : SendOptions) (method : string)
    (url : Url) (hdrs : gmap string string) (st : State)
  : res Response * State :=
  let st := set_session
              (connection_from_host (pool_key o url) (session (self st)))
              st in
  if negb (valid_timeout (o_timeout o)) then (Raise (exc ValueError), st)
  else
    let r := max_retries (session (self st)) in
    let has_proxy := bool_decide (is_Some (select_proxy url (o_proxies o))) in
    match urlopen net (room st) has_proxy method url hdrs r st with
    | (Ret resp, st') =>
        (Ret {| status_code := status resp; resp_url := url;
                elapsed := Timedelta (measured_us resp);
                raw_response := resp |}, st')
    | (Raise e, st') => (Raise (adapter_except e), st')
    end.

(** [Session.resolve_redirects]: follow redirects, at most
    [max_redirects] of them. *)
Fixpoint resolve_redirects (remaining : nat) (o : SendOptions)
    (method : string) (hdrs : gmap string string) (resp : Response)
    (st : State) : res Response * State :=
  match get_redirect_target resp with
  | None => (Ret resp, st)
  | Some url' =>
      match remaining with
      | O => (Raise (exc TooManyRedirects), st)
      | S n =>
          let method' := rebuild_method method (status_code resp) in
          match HTTPAdapter_send o method' url' hdrs st with
          | (Ret resp', st') => resolve_redirects n o method' hdrs resp' st'
          | (Raise e, st') => (Raise e, st')
          end
      end
  end.

(** [Session.request(method, url, **kw)] *)
Definition Session_request (method : string) (url : Url)
    (kw : gmap string pyval) (st : State) : res Response * State :=
  if negb (accepted kw) then (Raise (exc TypeError), st)
  else
    let s := session (self st) in
    match prepare_headers s (kw !! "headers") with
    | Raise e => (Raise e, st)
    | Ret hdrs =>
    match request_proxies (kw !! "proxies") with
    | Raise e => (Raise e, st)
    | Ret proxies_given =>
        let o := send_options s kw proxies_given in
        let allow_redirects :=
          truthy (default (PBool true) (kw !! "allow_redirects")) in
        match HTTPAdapter_send o (upper method) url hdrs st with
        | (Ret resp, st') =>
            if allow_redirects
            then resolve_redirects (max_redirects s) o (upper method) hdrs
                                   resp st'
            else (Ret resp, st')
        | (Raise e, st') => (Raise e, st')
        end
    end end.

End Requests.

(** ** [HTTPClient] ([utils/http_client.py]) *)

(** [requests.utils.default_headers()], the headers of a fresh [Session]. *)
Definition requests_default_headers : gmap string string :=
  ci_update ∅
    {[ "User-Agent" := "python-requests";
       "Accept-Encoding" := "gzip, deflate";
       "Accept" := "*/*";
       "Connection" := "keep-alive" ]}.

Definition user_agents : list string :=
  [ "Mozilla/5.0 (Windows NT 10.0; Win64; x64) AppleWebKit/537.36 (KHTML, like Gecko) Chrome/120.0.0.0 Safari/537.36";
    "Mozilla/5.0 (Windows NT 10.0; Win64; x64) AppleWebKit/537.36 (KHTML, like Gecko) Chrome/119.0.0.0 Safari/537.36";
    "Mozilla/5.0 (Macintosh; Intel Mac OS X 10_15_7) AppleWebKit/537.36 (KHTML, like Gecko) Chrome/120.0.0.0 Safari/537.36";
    "Mozilla/5.0 (X11; Linux x86_64) AppleWebKit/537.36 (KHTML, like Gecko) Chrome/120.0.0.0 Safari/537.36";
    "Mozilla/5.0 (Windows NT 10.0; Win64; x64; rv:109.0) Gecko/20100101 Firefox/121.0" ].

(** [random.choice(seq)]; [rnd] is what the random source draws. *)
Definition random_choice (rnd : nat) (seq : list string) : string :=
  nth (rnd mod length seq) seq "".

Definition _get_random_user_agent (rnd : nat) : string :=
  random_choice rnd user_agents.

(** The [Retry] that [__init__] configures; what it does not pass keeps
    urllib3's defaults. *)
Definition retry_strategy (retries : Z) : Retry :=
  {| total := retries;
     backoff_factor := 0.5;
     status_forcelist := [429; 500; 502; 503; 504];
     allowed_methods := ["GET"; "POST"; "HEAD"];
     history := [];
     raise_on_status := true;
     respect_retry_after_header := true |}.

Definition default_headers (user_agent : option string) (rnd : nat)
  : gmap string string :=
  {[ "User-Agent" := str_or user_agent (_get_random_user_agent rnd);
     "Accept" := "text/html,application/xhtml+xml,application/xml;q=0.9,*/*;q=0.8";
     "Accept-Language" := "en-US,en;q=0.9";
     "Accept-Encoding" := "gzip, deflate";
     "Connection" := "keep-alive";
     "Upgrade-Insecure-Requests" := "1";
     "Cache-Control" := "max-age=0" ]}.

(** [HTTPClient.__init__] *)
Definition __init__ (timeout : Z) (user_agent : option string)
    (proxy : option string) (delay : Q) (retries : Z) (verify_ssl : bool)
    (rnd : nat) : HTTPClient :=
  {| timeout := timeout;
     delay := delay;
     retries := retries;
     verify_ssl := verify_ssl;
     session :=
       {| headers := ci_update requests_default_headers
                               (default_headers user_agent rnd);
          proxies :=
            match proxy with
            | Some p =>
                if String.eqb p "" then ∅
                else {[ "http" := p; "https" := p ]}
            | None => ∅
            end;
          verify := true;
          max_redirects := DEFAULT_REDIRECT_LIMIT;
          max_retries := retry_strategy retries;
          pool_connections := 100;
          poolmanager := [] |} |}.

(** The room of the concrete runs below.  CPython's recursion limit is
    1000 frames unless the program changes it; how many of them are left
    for nested calls of [urlopen] depends on the caller. *)
Definition default_room : nat := 900.

(** The state in which a fresh client starts. *)
Definition start (c : HTTPClient) : State :=
  {| self := c; trace := []; room := default_room |}.

(** The [except] clauses of [_request], in their order: each of them
    returns [None]; an exception none of them catches goes on to the
    caller. *)
Definition _request_except (e : exn) : res (option Response) :=
  if isinstance e Timeout then Ret None
  else if isinstance e ConnectionError then Ret None
  else if isinstance e TooManyRedirects then Ret None
  else if isinstance e RequestException then Ret None
  else if isinstance e Exception then Ret None
  else Raise e.

(** [response.elapsed = response.elapsed.total_seconds()] *)
Definition set_elapsed_seconds (resp : Response) : res Response :=
  match elapsed resp with
  | Timedelta us =>
      Ret {| status_code := status_code resp; resp_url := resp_url resp;
             elapsed := Seconds (total_seconds us);
             raw_response := raw_response resp |}
  | Seconds _ => Raise (exc AttributeError)
  end.

(** The keyword arguments that [_request] hands to [Session.request]. *)
Definition request_kwargs (c : HTTPClient) (kwargs : gmap string pyval)
  : gmap string pyval :=
  let kwargs := setdefault "timeout" (PInt (timeout c)) kwargs in
  let kwargs := setdefault "allow_redirects" (PBool true) kwargs in
  let kwargs := setdefault "verify" (PBool (verify_ssl c)) kwargs in
  setdefault "stream" (PBool false) kwargs.

Section Dispatcher.

Variable net : nat -> raw.

(** [HTTPClient._request] *)
Definition _request (method : string) (url : Url) (kwargs : gmap string pyval)
    (st : State) : res (option Response) * State :=
  let st := if Qpos (delay (self st))
            then time_sleep (delay (self st)) st else st in
  let kwargs := request_kwargs (self st) kwargs in
  let st := log (EvRequest method url kwargs) st in
  match Session_request net method url kwargs st with
  | (Ret response, st') =>
      match set_elapsed_seconds response with
      | Ret response' => (Ret (Some response'), st')
      | Raise e => (_request_except e, st')
      end
  | (Raise e, st') => (_request_except e, st')
  end.

(** A keyword named like a positional parameter makes the call raise
    [TypeError]: for [self] and [url] the call of [get] or [post] itself,
    for [method] the call [self._request(method, url, **kwargs)] inside. *)
Definition binds_twice (kwargs : gmap string pyval) : bool :=
  bool_decide (is_Some (kwargs !! "self"))
  || bool_decide (is_Some (kwargs !! "method"))
  || bool_decide (is_Some (kwargs !! "url")).

(** [HTTPClient.get] *)
Definition get (url : Url) (kwargs : gmap string pyval) (st : State)
  : res (option Response) * State :=
  if binds_twice kwargs then (Raise (exc TypeError), st)
  else _request "GET" url kwargs st.

(** [HTTPClient.post] *)
Definition post (url : Url) (data : pyval) (kwargs : gmap string pyval)
    (st : State) : res (option Response) * State :=
  if binds_twice kwargs then (Raise (exc TypeError), st)
  else _request "POST" url (<["data" := data]> kwargs) st.

End Dispatcher.

(** [HTTPClient.close]: [Session.close] closes the adapter, which clears
    its pool manager. *)
Definition close (st : State) : State :=
  set_session (adapter_close (session (self st))) st.

(** * Runs, observations and invariants

    What the properties below are stated with. *)

(** Everything of the client object that is configuration: all of it but
    the adapter's pool table. *)
Definition config (c : HTTPClient) :=
  (timeout c, delay c, retries c, verify_ssl c,
   (headers (session c), proxies (session c), verify (session c),
    max_redirects (session c), max_retries (session c),
    pool_connections (session c))).

(** [st'] comes after [st]: same configuration, and the trace has only
    grown, by events that satisfy [P]. *)
Definition grows (P : event -> Prop) (st st' : State) : Prop :=
  config (self st) = config (self st') /\
  exists tr, trace st' = trace st ++ tr /\ Forall P tr.

(** ... by any events. *)
Definition extends : State -> State -> Prop := grows (fun _ => True).

(** The headers that the attempts of one [Session.request] carry. *)
Definition sent_headers (s : Session) (kw : gmap string pyval)
  : gmap string string :=
  match prepare_headers s (kw !! "headers") with
  | Ret hdrs => hdrs
  | Raise _ => ∅
  end.

(** A target that answers every attempt with the same status, without
    [Retry-After] or [Location] header. *)
Definition always (st_code : Z) : nat -> raw :=
  fun _ => Answer {| status := st_code; retry_after := None;
                     location := None; measured_us := 1500 |}.

(** The URL that the concrete runs ask for. *)
Definition target : Url :=
  {| scheme := https; host := "target.example"; port := None;
     path := "/admin" |}.

(** The client with the defaults of [__init__] and of the command line. *)
Definition default_client : HTTPClient := __init__ 10 None None 0 3 false 0.







(** A [Retry] as the client configures it, at any stage of an exchange:
    the settings of [retry_strategy], and a history without redirects
    (requests calls [urlopen] with [redirect=False]). *)
Definition configured (r : Retry) : Prop :=
  backoff_factor r = 0.5%Q /\
  status_forcelist r = [429; 500; 502; 503; 504] /\
  allowed_methods r = ["GET"; "POST"; "HEAD"] /\
  raise_on_status r = true /\
  respect_retry_after_header r = true /\
  Forall (fun h => redirect_location h = None) (history r).

(** The backoff before the [n]-th retry, for [n] from 2 on. *)
Definition backoff (n : nat) : Q :=
  Qmin 120 (0.5 * inject_Z (2 ^ (Z.of_nat n - 1))).

(** A status that the policy retries whatever the headers. *)
Definition forced (st_code : Z) : bool :=
  mem_Z st_code [429; 500; 502; 503; 504].

(** The positive backoffs slept before retries [j+1], ..., [j+n]. *)
Fixpoint backoffs (j n : nat) : list Q :=
  match n with
  | O => []
  | S n' =>
      (if (S j <=? 1)%nat then [] else [backoff (S j)]) ++ backoffs (S j) n'
  end.

(** The state in which [_request] hands the request to the session. *)
Definition before_send_log (m : string) (u : Url) (kw : gmap string pyval)
    (st : State) : State :=
  let st1 := if Qpos (delay (self st))
             then time_sleep (delay (self st)) st else st in
  log (EvRequest m u (request_kwargs (self st) kw)) st1.

(** The options with which a call that passes no [proxies] of its own
    reaches [HTTPAdapter.send]. *)
Definition call_options (c : HTTPClient) (kw : gmap string pyval)
  : SendOptions :=
  send_options (session c) (request_kwargs c kw) ∅.

(** The state in which [_request] reaches the first transport attempt, and
    that first exchange. *)
Definition before_send (m : string) (u : Url) (kw : gmap string pyval)
    (st : State) : State :=
  let st2 := before_send_log m u kw st in
  set_session
    (connection_from_host (pool_key (call_options (self st) kw) u)
                          (session (self st2)))
    st2.

Definition exchange (net : nat -> raw) (m : string) (u : Url)
    (kw : gmap string pyval) (st : State) : res HTTPResponse * State :=
  let s := session (self st) in
  let o := call_options (self st) kw in
  urlopen net (room st)
          (bool_decide (is_Some (select_proxy u (o_proxies o))))
          (upper m) u (sent_headers s (request_kwargs (self st) kw))
          (max_retries s) (before_send m u kw st).

(** ** Calls that requests can prepare

    The theorems that say how many attempts a call makes, or what it
    returns, are about calls that get as far as the first attempt.  For
    other values requests raises while it prepares the request (a timeout
    that is no number above 0, headers that are no dict, a header with a
    line break, a URL without host, a proxy it cannot use, ...), and of the
    parameters that shape the request on the wire beyond method, URL and
    headers the run records nothing.  [usable] is a sufficient condition,
    on the side of caution. *)

Fixpoint every (p : Ascii.ascii -> bool) (s : string) : bool :=
  match s with
  | EmptyString => true
  | String c r => p c && every p r
  end.

(** A visible ASCII character. *)
Definition visible (c : Ascii.ascii) : bool :=
  let n := Ascii.nat_of_ascii c in (33 <=? n)%nat && (n <=? 126)%nat.

Definition alnum (c : Ascii.ascii) : bool :=
  let n := Ascii.nat_of_ascii c in
  ((48 <=? n)%nat && (n <=? 57)%nat) || ((65 <=? n)%nat && (n <=? 90)%nat)
  || ((97 <=? n)%nat && (n <=? 122)%nat).

Definition header_name_ok (s : string) : bool :=
  negb (String.eqb s "")
  && every (fun c => visible c && negb (Ascii.eqb c ":"%char)) s.

Definition header_value_ok (s : string) : bool :=
  every (fun c => visible c || Ascii.eqb c " "%char) s
  && match s with String c _ => visible c | EmptyString => true end.

Definition headers_ok (h : gmap string string) : bool :=
  forallb (fun kv => header_name_ok (fst kv) && header_value_ok (snd kv))
          (map_to_list h).

Definition url_ok (u : Url) : bool :=
  match host u with String c _ => alnum c | EmptyString => false end
  && every (fun c => alnum c || Ascii.eqb c "."%char || Ascii.eqb c "-"%char) (host u)
  && match path u with String c _ => Ascii.eqb c "/"%char | EmptyString => true end
  && every visible (path u)
  && match port u with
     | Some p => Z.ltb 0 p && Z.ltb p 65536
     | None => true
     end.


(** A body that requests can send as it is: none, text, or form fields. *)
Definition body (data : pyval) : bool :=
  match data with
  | PNone | PStr _ | PDict _ => true
  | PBool _ | PInt _ | PFloat _ => false
  end.

Definition option_ok (k : string) (v : pyval) : bool :=
  if String.eqb k "timeout" then valid_timeout v
  else if String.eqb k "headers" then
    match v with PNone => true | PDict d => headers_ok d | _ => false end
  else if String.eqb k "verify" then
    match v with PBool _ => true | _ => false end
  else if String.eqb k "data" then body v
  else mem_str k ["allow_redirects"; "stream"].

(** The client uses no proxy and its headers are well-formed, the URL is
    well-formed, the keyword arguments are among [timeout],
    [allow_redirects], [stream], [verify], [headers] and [data] with values
    of their kind, and the timeout in force, the call's or else the
    configured one, is a number above 0 or [None]. *)
Definition usable (c : HTTPClient) (u : Url) (kw : gmap string pyval) : bool :=
  bool_decide (proxies (session c) = ∅)
  && headers_ok (headers (session c))
  && url_ok u
  && forallb (fun kv => option_ok (fst kv) (snd kv)) (map_to_list kw)
  && valid_timeout (default (PInt (timeout c)) (kw !! "timeout")).



(** Two states that differ at most in the adapter's pool table. *)
Definition akin (st1 st2 : State) : Prop :=
  trace st1 = trace st2 /\ config (self st1) = config (self st2) /\
  room st1 = room st2.

(** A result that is a value, or an exception of a subclass of
    [Exception]. *)
Definition no_escape {A} (x : res A) : Prop :=
  match x with
  | Ret _ => True
  | Raise e => isinstance e Exception = true
  end.

(** * Properties *)

#[local] Arguments sleep : simpl never.
#[local] Arguments increment : simpl never.
#[local] Arguments is_retry : simpl never.
#[local] Arguments urlopen_catches : simpl never.
#[local] Arguments urlopen_wrap : simpl never.
#[local] Arguments log : simpl never.

(** ** What a run leaves alone *)

Lemma config_fields c c' :
  config c = config c' ->
  timeout c = timeout c' /\ delay c = delay c' /\ retries c = retries c' /\
  verify_ssl c = verify_ssl c' /\
  headers (session c) = headers (session c') /\
  proxies (session c) = proxies (session c') /\
  max_retries (session c) = max_retries (session c').
Proof. unfold config. intros H. repeat split; congruence. Qed.

Section Grows.

Variable P : event -> Prop.

Lemma grows_refl st : grows P st st.
Proof. split; [done | exists []; by rewrite app_nil_r]. Qed.

Lemma grows_trans st1 st2 st3 :
  grows P st1 st2 -> grows P st2 st3 -> grows P st1 st3.
Proof.
  intros [Hc1 (t1 & H1 & F1)] [Hc2 (t2 & H2 & F2)]. split; [congruence |].
  exists (t1 ++ t2). split; [by rewrite H2, H1, app_assoc |].
  by apply Forall_app.
Qed.

Lemma grows_log e st : P e -> grows P st (log e st).
Proof. intros He. split; [done | exists [e]; split; [done | by constructor]]. Qed.

Lemma grows_pool p st :
  grows P st (set_session (set_poolmanager p (session (self st))) st).
Proof. split; [done | exists []; by rewrite app_nil_r]. Qed.

Hypothesis P_sleep : forall d, P (EvSleep d).

Lemma grows_sleep r resp st : grows P st (snd (sleep r resp st)).
Proof.
  unfold sleep, sleep_for_retry, _sleep_backoff, time_sleep.
  repeat case_match; simplify_eq; cbn [snd];
    try apply grows_refl; by apply grows_log.
Qed.

Variable hdrs : gmap string string.
Hypothesis P_send : forall m u, P (EvSend m u hdrs).

Lemma grows_urlopen net depth hp m u r st :
  grows P st (snd (urlopen net depth hp m u hdrs r st)).
Proof.
  revert r st. induction depth as [|d IH]; intros r st; cbn [urlopen].
  { apply grows_refl. }
  pose proof (grows_log (EvSend m u hdrs) st (P_send m u)) as HL.
  assert (Hrec : forall r' resp,
    grows P st
      (snd (match sleep r' resp (log (EvSend m u hdrs) st) with
            | (Raise x, st1) => (Raise x, st1)
            | (Ret _, st1) => urlopen net d hp m u hdrs r' st1
            end))).
  { intros r' resp.
    pose proof (grows_sleep r' resp (log (EvSend m u hdrs) st)) as HS.
    destruct (sleep r' resp _) as [[[] | x] st1]; cbn [snd] in HS |- *.
    - eapply grows_trans; [exact HL |].
      eapply grows_trans; [exact HS | apply IH].
    - eapply grows_trans; [exact HL | exact HS]. }
  destruct (net (sends (trace st))) as [resp | c].
  - destruct (is_retry _ _ _ _); [| exact HL].
    destruct (increment _ _ _ _ _) as [r' | x]; [apply Hrec |].
    by destruct (raise_on_status r).
  - destruct (urlopen_catches _); [| exact HL].
    destruct (increment _ _ _ _ _) as [r' | x]; [apply Hrec | exact HL].
Qed.

Lemma grows_HTTPAdapter_send net px m u st :
  grows P st (snd (HTTPAdapter_send net px m u hdrs st)).
Proof.
  unfold HTTPAdapter_send, connection_from_host.
  destruct (valid_timeout _); cbn [negb]; [| apply grows_pool].
  match goal with
  | |- context [urlopen ?n ?d ?hp ?m ?u ?h ?r ?s] =>
      pose proof (grows_urlopen n d hp m u r s) as HU;
      destruct (urlopen n d hp m u h r s) as [[resp | e] st']
  end; simpl in *; (eapply grows_trans; [apply grows_pool | exact HU]).
Qed.

Lemma grows_resolve_redirects net n px m resp st :
  grows P st (snd (resolve_redirects net n px m hdrs resp st)).
Proof.
  revert m resp st. induction n as [|n IH]; intros m resp st; simpl.
  { repeat case_match; apply grows_refl. }
  destruct (get_redirect_target resp) as [u|]; [| apply grows_refl].
  pose proof (grows_HTTPAdapter_send net px
                (rebuild_method m (status_code resp)) u st) as HS.
  destruct (HTTPAdapter_send net px _ u hdrs st) as [[resp' | e] st'];
    simpl in *.
  - eapply grows_trans; [exact HS | apply IH].
  - exact HS.
Qed.

End Grows.

Lemma grows_Session_request (P : event -> Prop) net m u kw st :
  (forall d, P (EvSleep d)) ->
  (forall m' u', P (EvSend m' u' (sent_headers (session (self st)) kw))) ->
  grows P st (snd (Session_request net m u kw st)).
Proof.
  intros Psl Psd. unfold Session_request, sent_headers in *.
  destruct (accepted kw); cbn [negb]; [| apply grows_refl].
  destruct (prepare_headers _ _) as [h | e]; [| apply grows_refl].
  destruct (request_proxies _) as [rp | e]; [| apply grows_refl].
  match goal with
  | |- context [HTTPAdapter_send ?n ?px ?m ?u ?h ?s] =>
      pose proof (grows_HTTPAdapter_send P Psl h Psd n px m u s) as HS;
      destruct (HTTPAdapter_send n px m u h s) as [[resp | e] st']
  end; cbn [snd] in *; [| exact HS].
  case_match; [| exact HS].
  eapply grows_trans; [exact HS | by apply grows_resolve_redirects].
Qed.

Lemma grows__request (P : event -> Prop) net m u kw st :
  (forall d, P (EvSleep d)) ->
  (forall m' u' k, P (EvRequest m' u' k)) ->
  (forall m' u', P (EvSend m' u'
     (sent_headers (session (self st)) (request_kwargs (self st) kw)))) ->
  grows P st (snd (_request net m u kw st)).
Proof.
  intros Psl Prq Psd. unfold _request.
  set (st1 := if Qpos (delay (self st)) then _ else _).
  assert (Hself : self st1 = self st) by (subst st1; by case_match).
  assert (H1 : grows P st st1).
  { subst st1. case_match; [by apply grows_log | apply grows_refl]. }
  rewrite Hself.
  match goal with
  | |- context [Session_request ?n ?m ?u ?k ?s] =>
      pose proof (grows_Session_request P n m u k s Psl) as HS;
      destruct (Session_request n m u k s) as [[resp | e] st']
  end; simpl in *.
  all: assert (grows P st st') as H
      by (eapply grows_trans; [exact H1 |];
          eapply grows_trans;
            [apply grows_log, Prq | apply HS; by rewrite Hself]).
  all: by repeat case_match.
Qed.

Lemma extends_Session_request net m u kw st :
  extends st (snd (Session_request net m u kw st)).
Proof. by apply grows_Session_request. Qed.

Lemma extends__request net m u kw st :
  extends st (snd (_request net m u kw st)).
Proof. by apply grows__request. Qed.

Lemma extends_get net u kw st : extends st (snd (get net u kw st)).
Proof.
  unfold get. case_match; [apply grows_refl | apply extends__request].
Qed.

Lemma extends_post net u d kw st : extends st (snd (post net u d kw st)).
Proof.
  unfold post. case_match; [apply grows_refl | apply extends__request].
Qed.

(** ** The dispatcher's own steps *)

Lemma lookup_setdefault k v (d : gmap string pyval) k' :
  setdefault k v d !! k' =
  if decide (k = k') then Some (default v (d !! k)) else d !! k'.
Proof.
  unfold setdefault. destruct (d !! k) as [x|] eqn:E; case_decide; subst;
    simpl; try done.
  - by rewrite lookup_insert_eq.
  - by rewrite lookup_insert_ne.
Qed.

Lemma lookup_request_kwargs c (kw : gmap string pyval) :
  request_kwargs c kw !! "timeout"
    = Some (default (PInt (timeout c)) (kw !! "timeout")) /\
  request_kwargs c kw !! "allow_redirects"
    = Some (default (PBool true) (kw !! "allow_redirects")) /\
  request_kwargs c kw !! "verify"
    = Some (default (PBool (verify_ssl c)) (kw !! "verify")) /\
  request_kwargs c kw !! "stream"
    = Some (default (PBool false) (kw !! "stream")) /\
  (forall k, k ∉ ["timeout"; "allow_redirects"; "verify"; "stream"] ->
             request_kwargs c kw !! k = kw !! k).
Proof.
  unfold request_kwargs. repeat split.
  1-4: repeat (rewrite lookup_setdefault; case_decide; try done).
  intros k Hk. repeat (rewrite lookup_setdefault; case_decide; subst).
  all: try done; exfalso; apply Hk; set_solver.
Qed.

(** The events of one [_request]: the pacing sleep when the delay is
    positive, then the hand-over to the session with the completed keyword
    arguments, then what the session does. *)
Lemma _request_trace net m u kw st :
  exists tr,
    trace (snd (_request net m u kw st)) =
    trace st
    ++ (if Qpos (delay (self st)) then [EvSleep (delay (self st))] else [])
    ++ EvRequest m u (request_kwargs (self st) kw) :: tr.
Proof.
  unfold _request.
  set (st1 := if Qpos (delay (self st)) then _ else _).
  assert (Hself : self st1 = self st).
  { subst st1. by case_match. }
  assert (Htr : trace st1 = trace st ++
            (if Qpos (delay (self st)) then [EvSleep (delay (self st))] else [])).
  { subst st1. case_match; simpl; [done | by rewrite app_nil_r]. }
  rewrite Hself.
  match goal with
  | |- context [Session_request ?n ?m ?u ?k ?s] =>
      destruct (extends_Session_request n m u k s) as [_ (tr & HS & _)];
      destruct (Session_request n m u k s) as [[resp | e] st']
  end; simpl in *.
  all: unfold log in HS; simpl in HS; rewrite Htr in HS.
  all: exists tr; repeat case_match; simpl; rewrite HS;
    by rewrite <- !app_assoc.
Qed.

(** C10: every [get], [post] and [_request] call leaves the client's
    configuration as it was: the [timeout], [delay], [retries] and
    [verify_ssl] fields, the session's default headers and its proxies are
    the same after the call as before, whatever the outcome. *)
Theorem dispatch_keeps_configuration net m u d kw st :
  let unchanged (st' : State) :=
    timeout (self st') = timeout (self st) /\
    delay (self st') = delay (self st) /\
    retries (self st') = retries (self st) /\
    verify_ssl (self st') = verify_ssl (self st) /\
    headers (session (self st')) = headers (session (self st)) /\
    proxies (session (self st')) = proxies (session (self st)) in
  unchanged (snd (get net u kw st)) /\
  unchanged (snd (post net u d kw st)) /\
  unchanged (snd (_request net m u kw st)).
Proof.
  intros unchanged.
  assert (H : forall st', extends st st' -> unchanged st').
  { intros st' [Hc _]. apply config_fields in Hc as (?&?&?&?&?&?&?).
    subst unchanged. simpl. by repeat split. }
  split; [| split]; apply H.
  - apply extends_get.
  - apply extends_post.
  - apply extends__request.
Qed.

(** C8: the options of a call default to the client's configuration:
    [timeout] to the configured timeout, [allow_redirects] to [True],
    [verify] to the configured flag, [stream] to [False]; each default is
    used exactly when the caller's keyword arguments do not set the option,
    and every other keyword argument is handed on as given ([post] adds its
    [data]). *)
Theorem options_default_to_configuration net u d kw st :
  binds_twice kw = false ->
  let c := self st in
  exists opts_get opts_post,
    (exists tr1 tr2, trace (snd (get net u kw st))
                     = tr1 ++ EvRequest "GET" u opts_get :: tr2) /\
    (exists tr1 tr2, trace (snd (post net u d kw st))
                     = tr1 ++ EvRequest "POST" u opts_post :: tr2) /\
    opts_post !! "data" = Some d /\
    forall opts, opts = opts_get \/ opts = opts_post ->
      opts !! "timeout" = Some (default (PInt (timeout c)) (kw !! "timeout")) /\
      opts !! "allow_redirects"
        = Some (default (PBool true) (kw !! "allow_redirects")) /\
      opts !! "verify"
        = Some (default (PBool (verify_ssl c)) (kw !! "verify")) /\
      opts !! "stream" = Some (default (PBool false) (kw !! "stream")) /\
      (forall k,
         k ∉ ["timeout"; "allow_redirects"; "verify"; "stream"; "data"] ->
         opts !! k = kw !! k).
Proof.
  intros Hb c.
  exists (request_kwargs c kw), (request_kwargs c (<["data" := d]> kw)).
  unfold get, post. rewrite Hb.
  destruct (_request_trace net "GET" u kw st) as [trg Hg].
  destruct (_request_trace net "POST" u (<["data" := d]> kw) st) as [trp Hp].
  split; [| split; [| split]].
  - rewrite Hg, app_assoc. eauto.
  - rewrite Hp, app_assoc. eauto.
  - destruct (lookup_request_kwargs c (<["data" := d]> kw)) as (_&_&_&_&H).
    rewrite H by set_solver. by rewrite lookup_insert_eq.
  - intros opts [-> | ->].
    + destruct (lookup_request_kwargs c kw) as (H1&H2&H3&H4&H5).
      repeat split; try done. intros k Hk. apply H5. set_solver.
    + destruct (lookup_request_kwargs c (<["data" := d]> kw))
        as (H1&H2&H3&H4&H5).
      rewrite !lookup_insert_ne in * by done.
      repeat split; try done. intros k Hk.
      rewrite H5 by set_solver. apply lookup_insert_ne. set_solver.
Qed.

Lemma options_default_to_configuration_witness :
  binds_twice ({[ "timeout" := PInt 3 ]} : gmap string pyval) = false /\
  exists opts_get opts_post,
    (exists tr1 tr2,
        trace (snd (get (always 200) target {[ "timeout" := PInt 3 ]}
                        (start default_client)))
        = tr1 ++ EvRequest "GET" target opts_get :: tr2) /\
    (exists tr1 tr2,
        trace (snd (post (always 200) target PNone {[ "timeout" := PInt 3 ]}
                         (start default_client)))
        = tr1 ++ EvRequest "POST" target opts_post :: tr2) /\
    opts_post !! "data" = Some PNone /\
    forall opts, opts = opts_get \/ opts = opts_post ->
      opts !! "timeout" = Some (PInt 3) /\
      opts !! "allow_redirects" = Some (PBool true) /\
      opts !! "verify" = Some (PBool false) /\
      opts !! "stream" = Some (PBool false) /\
      (forall k,
         k ∉ ["timeout"; "allow_redirects"; "verify"; "stream"; "data"] ->
         opts !! k = ({[ "timeout" := PInt 3 ]} : gmap string pyval) !! k).
Proof.
  split; [reflexivity |].
  exact (options_default_to_configuration (always 200) target PNone
           {[ "timeout" := PInt 3 ]} (start default_client) eq_refl).
Defined.

(** ** Pacing *)

Lemma Qpos_true q : Qpos q = true <-> (0 < q)%Q.
Proof.
  unfold Qpos. rewrite negb_true_iff, <- not_true_iff_false, Qle_bool_iff.
  split; [apply Qnot_le_lt | apply Qlt_not_le].
Qed.

Lemma Qpos_false q : Qpos q = false <-> (q <= 0)%Q.
Proof. unfold Qpos. by rewrite negb_false_iff, Qle_bool_iff. Qed.

(** C9, as the code has it: when the configured delay is positive, [get]
    and [post] sleep for exactly that delay and then hand the request to the
    session, with nothing in between; when the delay is zero or negative
    they hand it over at once, without a pacing sleep. *)
Theorem pacing_sleep_when_delay_positive net u d kw st :
  binds_twice kw = false ->
  let dl := delay (self st) in
  let opts_get := request_kwargs (self st) kw in
  let opts_post := request_kwargs (self st) (<["data" := d]> kw) in
  ((0 < dl)%Q ->
     (exists tr, trace (snd (get net u kw st))
                 = trace st ++ EvSleep dl :: EvRequest "GET" u opts_get :: tr) /\
     (exists tr, trace (snd (post net u d kw st))
                 = trace st ++ EvSleep dl :: EvRequest "POST" u opts_post :: tr)) /\
  ((dl <= 0)%Q ->
     (exists tr, trace (snd (get net u kw st))
                 = trace st ++ EvRequest "GET" u opts_get :: tr) /\
     (exists tr, trace (snd (post net u d kw st))
                 = trace st ++ EvRequest "POST" u opts_post :: tr)).
Proof.
  intros Hb dl og op. unfold get, post. rewrite Hb.
  destruct (_request_trace net "GET" u kw st) as [trg Hg].
  destruct (_request_trace net "POST" u (<["data" := d]> kw) st) as [trp Hp].
  split; intros Hd.
  - apply Qpos_true in Hd. fold dl in Hg, Hp. rewrite Hd in Hg, Hp.
    simpl in Hg, Hp. split; eauto.
  - apply Qpos_false in Hd. fold dl in Hg, Hp. rewrite Hd in Hg, Hp.
    simpl in Hg, Hp. split; eauto.
Qed.

Lemma pacing_sleep_when_delay_positive_witness :
  let st := start (__init__ 10 None None 0.25 3 false 0) in
  binds_twice (∅ : gmap string pyval) = false /\
  (0 < 0.25)%Q /\
  (exists tr, trace (snd (get (always 200) target ∅ st))
              = trace st ++ EvSleep 0.25
                  :: EvRequest "GET" target (request_kwargs (self st) ∅) :: tr).
Proof.
  intros st. split; [reflexivity |]. split; [reflexivity |].
  exact (proj1 (proj1 (pacing_sleep_when_delay_positive
                         (always 200) target PNone ∅ st eq_refl) eq_refl)).
Defined.

(** C9 as stated fails for a negative delay: it is not zero, yet the call
    does not sleep at all. *)
Lemma negative_delay_no_sleep :
  let c := __init__ 10 None None (-1) 3 false 0 in
  ~ (delay c == 0)%Q /\
  fst (get (always 200) target ∅ (start c)) <> Ret None /\
  sleeps (trace (snd (get (always 200) target ∅ (start c)))) = [].
Proof.
  intros c. split; [| split].
  - intros H. vm_compute in H. discriminate H.
  - vm_compute. discriminate.
  - vm_compute. reflexivity.
Qed.

(** ** Identity *)








(** ** The retry policy at work *)

Lemma is_exhausted_spec r : is_exhausted r = Z.ltb (total r) 0.
Proof.
  unfold is_exhausted. simpl. destruct (Z.eqb_spec (total r) 0) as [E|E]; simpl.
  - rewrite E. reflexivity.
  - reflexivity.
Qed.

Lemma configured_retry_strategy k : configured (retry_strategy k).
Proof. unfold configured, retry_strategy; simpl. by repeat split. Qed.

Lemma takewhile_all {A} (p : A -> bool) l :
  Forall (fun x => p x = true) l -> takewhile p l = l.
Proof. induction 1 as [|x l Hx _ IH]; simpl; [done | by rewrite Hx, IH]. Qed.

Lemma consecutive_errors_len_configured r :
  configured r -> consecutive_errors_len r = length (history r).
Proof.
  intros (_&_&_&_&_&H). unfold consecutive_errors_len.
  rewrite takewhile_all, List.length_rev; [done |].
  apply Forall_rev. eapply Forall_impl; [exact H |].
  intros h Hh. simpl in Hh. rewrite Hh. reflexivity.
Qed.

Lemma get_backoff_time_configured r :
  configured r ->
  get_backoff_time r =
  if (length (history r) <=? 1)%nat then 0%Q else backoff (length (history r)).
Proof.
  intros Hc. unfold get_backoff_time.
  rewrite (consecutive_errors_len_configured r Hc).
  destruct Hc as (-> & _). reflexivity.
Qed.




Lemma sends_app a b : sends (a ++ b) = (sends a + sends b)%nat.
Proof. unfold sends. by rewrite filter_app, length_app. Qed.

Lemma sleeps_app a b : sleeps (a ++ b) = sleeps a ++ sleeps b.
Proof. unfold sleeps. apply omap_app. Qed.

Lemma before_send_log_self m u kw st :
  self (before_send_log m u kw st) = self st.
Proof.
  unfold before_send_log. destruct (Qpos (delay (self st))); reflexivity.
Qed.

Lemma before_send_log_room m u kw st :
  room (before_send_log m u kw st) = room st.
Proof.
  unfold before_send_log. destruct (Qpos (delay (self st))); reflexivity.
Qed.

Lemma before_send_log_trace m u kw st :
  trace (before_send_log m u kw st) =
  trace st
  ++ (if Qpos (delay (self st)) then [EvSleep (delay (self st))] else [])
  ++ [EvRequest m u (request_kwargs (self st) kw)].
Proof.
  unfold before_send_log, time_sleep, log.
  destruct (Qpos (delay (self st))); cbn [trace].
  - by rewrite <- app_assoc.
  - reflexivity.
Qed.

Lemma before_send_log_sends m u kw st :
  sends (trace (before_send_log m u kw st)) = sends (trace st).
Proof.
  rewrite before_send_log_trace, !sends_app.
  destruct (Qpos _); unfold sends; simpl; lia.
Qed.

Lemma before_send_self m u kw st :
  config (self (before_send m u kw st)) = config (self st).
Proof.
  unfold before_send. cbn [self set_session]. unfold config.
  cbn [timeout delay retries verify_ssl session connection_from_host
       set_poolmanager headers proxies verify max_redirects max_retries
       pool_connections].
  by rewrite before_send_log_self.
Qed.

Lemma before_send_room m u kw st : room (before_send m u kw st) = room st.
Proof. unfold before_send. cbn [room set_session]. apply before_send_log_room. Qed.

Lemma before_send_trace m u kw st :
  trace (before_send m u kw st) =
  trace st
  ++ (if Qpos (delay (self st)) then [EvSleep (delay (self st))] else [])
  ++ [EvRequest m u (request_kwargs (self st) kw)].
Proof. unfold before_send. cbn [trace set_session]. apply before_send_log_trace. Qed.

Lemma before_send_sends m u kw st :
  sends (trace (before_send m u kw st)) = sends (trace st).
Proof.
  unfold before_send. cbn [trace set_session]. apply before_send_log_sends.
Qed.

#[local] Arguments urlopen : simpl never.

(** [_request] in terms of [Session.request]. *)
Lemma _request_eq net m u kw st :
  _request net m u kw st =
  match Session_request net m u (request_kwargs (self st) kw)
                        (before_send_log m u kw st) with
  | (Ret response, st') =>
      match set_elapsed_seconds response with
      | Ret response' => (Ret (Some response'), st')
      | Raise e => (_request_except e, st')
      end
  | (Raise e, st') => (_request_except e, st')
  end.
Proof.
  unfold _request, before_send_log.
  set (st1 := if Qpos (delay (self st)) then _ else _).
  assert (Hself : self st1 = self st)
    by (subst st1; destruct (Qpos (delay (self st))); reflexivity).
  by rewrite Hself.
Qed.

(** [HTTPAdapter.send] with a timeout that it accepts. *)
Lemma HTTPAdapter_send_eq net o m u h st :
  valid_timeout (o_timeout o) = true ->
  HTTPAdapter_send net o m u h st =
  match urlopen net (room st)
          (bool_decide (is_Some (select_proxy u (o_proxies o)))) m u h
          (max_retries (session (self st)))
          (set_session
             (connection_from_host (pool_key o u) (session (self st))) st)
  with
  | (Ret resp, st') =>
      (Ret {| status_code := status resp; resp_url := u;
              elapsed := Timedelta (measured_us resp);
              raw_response := resp |}, st')
  | (Raise e, st') => (Raise (adapter_except e), st')
  end.
Proof. intros H. unfold HTTPAdapter_send. rewrite H. reflexivity. Qed.

(** ** Keyword arguments that [Session.request] accepts *)

Lemma accepted_spec (kw : gmap string pyval) :
  accepted kw = true <->
  forall k v, kw !! k = Some v -> mem_str k request_params = true.
Proof.
  unfold accepted. rewrite forallb_forall. split.
  - intros H k v Hk. apply H. apply in_map_iff. exists (k, v). split; [done |].
    apply list_elem_of_In. by apply elem_of_map_to_list.
  - intros H k Hin. apply in_map_iff in Hin as ([k' v] & <- & Hin).
    apply list_elem_of_In, elem_of_map_to_list in Hin. by eapply H.
Qed.

Lemma accepted_insert k v (kw : gmap string pyval) :
  mem_str k request_params = true -> accepted kw = true ->
  accepted (<[k := v]> kw) = true.
Proof.
  rewrite !accepted_spec. intros Hk H k' v' Hl.
  destruct (decide (k = k')) as [<- | Hne]; [done |].
  rewrite lookup_insert_ne in Hl by done. by eapply H.
Qed.

Lemma accepted_setdefault k v (kw : gmap string pyval) :
  mem_str k request_params = true -> accepted kw = true ->
  accepted (setdefault k v kw) = true.
Proof.
  intros Hk H. unfold setdefault. destruct (kw !! k); [done |].
  by apply accepted_insert.
Qed.

Lemma accepted_request_kwargs c kw :
  accepted kw = true -> accepted (request_kwargs c kw) = true.
Proof.
  intros H. unfold request_kwargs.
  repeat (apply accepted_setdefault; [reflexivity |]). exact H.
Qed.

Lemma accepted_binds_once kw : accepted kw = true -> binds_twice kw = false.
Proof.
  rewrite accepted_spec. intros H. unfold binds_twice.
  repeat (case_bool_decide as Hs;
          [destruct Hs as [v Hv]; apply H in Hv; discriminate Hv | clear Hs]).
  reflexivity.
Qed.

(** ** Calls that requests can prepare *)

Lemma usable_options c u kw :
  usable c u kw = true ->
  forall k v, kw !! k = Some v -> option_ok k v = true.
Proof.
  unfold usable. rewrite !andb_true_iff.
  intros ((((_ & _) & _) & H) & _) k v Hk.
  rewrite forallb_forall in H. apply (H (k, v)).
  apply list_elem_of_In. by apply elem_of_map_to_list.
Qed.

Lemma option_ok_accepted k v :
  option_ok k v = true -> mem_str k request_params = true.
Proof.
  unfold option_ok.
  destruct (String.eqb_spec k "timeout") as [-> | _]; [reflexivity |].
  destruct (String.eqb_spec k "headers") as [-> | _]; [reflexivity |].
  destruct (String.eqb_spec k "verify") as [-> | _]; [reflexivity |].
  destruct (String.eqb_spec k "data") as [-> | _]; [reflexivity |].
  unfold mem_str. cbn [existsb]. rewrite orb_false_r.
  intros [H | H]%orb_prop; apply String.eqb_eq in H; subst; reflexivity.
Qed.

Lemma usable_accepted c u kw : usable c u kw = true -> accepted kw = true.
Proof.
  intros H. apply accepted_spec. intros k v Hk.
  eapply option_ok_accepted, usable_options; eauto.
Qed.

Lemma usable_binds_once c u kw : usable c u kw = true -> binds_twice kw = false.
Proof. intros H. eapply accepted_binds_once, usable_accepted, H. Qed.

(** [post] adds its [data] to the keyword arguments. *)
Lemma usable_data c u kw d :
  usable c u kw = true -> body d = true ->
  usable c u (<["data" := d]> kw) = true.
Proof.
  unfold usable. rewrite !andb_true_iff.
  intros ((((H1 & H2) & H3) & H4) & H5) Hd.
  rewrite lookup_insert_ne by done. repeat split; try done.
  rewrite forallb_forall in H4 |- *. intros [k v] Hin.
  apply list_elem_of_In, elem_of_map_to_list in Hin.
  destruct (decide (k = "data")) as [-> | Hne].
  - rewrite lookup_insert_eq in Hin. injection Hin as <-. exact Hd.
  - rewrite lookup_insert_ne in Hin by done. apply (H4 (k, v)).
    apply list_elem_of_In. by apply elem_of_map_to_list.
Qed.

(** What [Session.request] makes of usable keyword arguments. *)
Lemma usable_session c u kw :
  usable c u kw = true ->
  accepted (request_kwargs c kw) = true /\
  prepare_headers (session c) (request_kwargs c kw !! "headers")
    = Ret (sent_headers (session c) (request_kwargs c kw)) /\
  request_proxies (request_kwargs c kw !! "proxies") = Ret ∅ /\
  valid_timeout (o_timeout (call_options c kw)) = true /\
  (forall u', select_proxy u' (o_proxies (call_options c kw)) = None).
Proof.
  intros Hu. pose proof (usable_options c u kw Hu) as Ho.
  destruct (lookup_request_kwargs c kw) as (Ht & _ & _ & _ & Hk).
  split; [eapply accepted_request_kwargs, usable_accepted, Hu |].
  split; [| split; [| split]].
  - unfold sent_headers. rewrite Hk by set_solver.
    destruct (kw !! "headers") as [v|] eqn:E; [| reflexivity].
    specialize (Ho _ _ E). by destruct v.
  - rewrite Hk by set_solver.
    destruct (kw !! "proxies") as [v|] eqn:E; [| reflexivity].
    specialize (Ho _ _ E). discriminate Ho.
  - unfold call_options, send_options. cbn [o_timeout]. rewrite Ht.
    unfold usable in Hu. rewrite !andb_true_iff in Hu. apply Hu.
  - intros u'. unfold call_options, send_options. cbn [o_proxies].
    unfold usable in Hu. rewrite !andb_true_iff in Hu.
    destruct Hu as ((((Hp & _) & _) & _) & _).
    apply bool_decide_eq_true_1 in Hp. rewrite Hp.
    unfold select_proxy, update. by rewrite !lookup_union, !lookup_empty.
Qed.

(** [_request] for a call that requests can prepare: the pacing sleep and
    the hand-over, the first exchange, then the redirects. *)
Lemma _request_usable net m u kw st :
  usable (self st) u kw = true ->
  _request net m u kw st =
  let o := call_options (self st) kw in
  let opts := request_kwargs (self st) kw in
  let h := sent_headers (session (self st)) opts in
  match exchange net m u kw st with
  | (Ret a, st') =>
      let resp := {| status_code := status a; resp_url := u;
                     elapsed := Timedelta (measured_us a);
                     raw_response := a |} in
      match
        (if truthy (default (PBool true) (opts !! "allow_redirects"))
         then resolve_redirects net (max_redirects (session (self st))) o
                                (upper m) h resp st'
         else (Ret resp, st'))
      with
      | (Ret response, st'') =>
          match set_elapsed_seconds response with
          | Ret response' => (Ret (Some response'), st'')
          | Raise e => (_request_except e, st'')
          end
      | (Raise e, st'') => (_request_except e, st'')
      end
  | (Raise e, st') => (_request_except (adapter_except e), st')
  end.
Proof.
  intros Hu.
  destruct (usable_session _ _ _ Hu) as (Hacc & Hh & Hp & Ht & _).
  rewrite _request_eq. unfold Session_request.
  rewrite before_send_log_self, Hacc, Hh, Hp. cbn [negb]. cbv zeta.
  rewrite HTTPAdapter_send_eq by exact Ht.
  rewrite before_send_log_room, before_send_log_self.
  unfold exchange, before_send, call_options. cbv zeta.
  rewrite before_send_log_self.
  match goal with
  | |- context [urlopen ?n ?d ?hp ?m ?u ?h ?r ?s] =>
      destruct (urlopen n d hp m u h r s) as [[a | e] st']
  end; reflexivity.
Qed.

(** [_request] when the first exchange raises. *)
Lemma _request_raise net m u kw st e st' :
  usable (self st) u kw = true ->
  exchange net m u kw st = (Raise e, st') ->
  _request net m u kw st = (_request_except (adapter_except e), st').
Proof. intros Hu Hex. by rewrite (_request_usable net m u kw st Hu), Hex. Qed.



(** ** One exchange under the configured policy *)

Lemma configured_retryable r m :
  configured r ->
  _is_method_retryable r m = mem_str (upper m) ["GET"; "POST"; "HEAD"].
Proof. intros (_ & _ & Ha & _). unfold _is_method_retryable. by rewrite Ha. Qed.

Lemma backoff_pos n : (2 <= n)%nat -> Qle_bool (backoff n) 0 = false.
Proof.
  intros Hn. apply not_true_iff_false. rewrite Qle_bool_iff.
  apply Qlt_not_le. unfold backoff. apply Q.min_glb_lt; [reflexivity |].
  apply Qmult_lt_0_compat; [reflexivity |].
  rewrite <- (Zlt_Qlt 0). apply Z.pow_pos_nonneg; lia.
Qed.


(** ... and after an error. *)
Lemma sleep_backoff_none r st :
  configured r ->
  sleep r None st =
  (Ret tt, if (length (history r) <=? 1)%nat then st
           else time_sleep (backoff (length (history r))) st).
Proof.
  intros Hc. unfold sleep, _sleep_backoff.
  rewrite (get_backoff_time_configured r Hc).
  destruct (Nat.leb_spec (length (history r)) 1) as [Hle | Hgt].
  - reflexivity.
  - rewrite backoff_pos by lia. reflexivity.
Qed.

(** [Retry.sleep] only sleeps. *)
Lemma sleep_only_sleeps r resp st :
  self (snd (sleep r resp st)) = self st /\
  exists tr, trace (snd (sleep r resp st)) = trace st ++ tr /\ sends tr = O.
Proof.
  unfold sleep, sleep_for_retry, _sleep_backoff, time_sleep, log.
  repeat case_match; simplify_eq; cbn [snd self trace]; split; try done;
    solve [ exists []; by rewrite app_nil_r | by eexists [_] ].
Qed.


(** One level of [urlopen]. *)
Lemma urlopen_S net d hp m u h r st :
  urlopen net (S d) hp m u h r st =
  let st1 := log (EvSend m u h) st in
  match net (sends (trace st)) with
  | Fault c =>
      if urlopen_catches (exc c) then
        match increment r m u None (Some (urlopen_wrap hp (exc c))) with
        | Raise x => (Raise x, st1)
        | Ret r' =>
            match sleep r' None st1 with
            | (Raise x, st2) => (Raise x, st2)
            | (Ret _, st2) => urlopen net d hp m u h r' st2
            end
        end
      else (Raise (exc c), st1)
  | Answer a =>
      if is_retry r m (status a) (has_retry_after a) then
        match increment r m u (Some a) None with
        | Raise x => if raise_on_status r then (Raise x, st1) else (Ret a, st1)
        | Ret r' =>
            match sleep r' (Some a) st1 with
            | (Raise x, st2) => (Raise x, st2)
            | (Ret _, st2) => urlopen net d hp m u h r' st2
            end
        end
      else (Ret a, st1)
  end.
Proof. reflexivity. Qed.

(** An answer that the policy does not retry ends the exchange. *)
Lemma urlopen_final net d hp m u h r st a :
  net (sends (trace st)) = Answer a ->
  is_retry r m (status a) (has_retry_after a) = false ->
  urlopen net (S d) hp m u h r st = (Ret a, log (EvSend m u h) st).
Proof. intros Hn Hr. rewrite urlopen_S. by rewrite Hn, Hr. Qed.




(** The first exchange of a call when its first answer is final. *)
Lemma exchange_final net m u kw st a :
  (1 <= room st)%nat ->
  net (sends (trace st)) = Answer a ->
  is_retry (max_retries (session (self st))) (upper m) (status a)
           (has_retry_after a) = false ->
  exchange net m u kw st =
  (Ret a,
   log (EvSend (upper m) u
          (sent_headers (session (self st)) (request_kwargs (self st) kw)))
       (before_send m u kw st)).
Proof.
  intros Hroom Hn Hr. unfold exchange.
  destruct (room st) as [|dp]; [lia |].
  apply urlopen_final; [by rewrite before_send_sends | exact Hr].
Qed.

Lemma sends_log_send m u h st :
  sends (trace (log (EvSend m u h) st)) = S (sends (trace st)).
Proof.
  unfold log. cbn [trace]. rewrite sends_app. unfold sends. simpl. lia.
Qed.






(** ** The handlers and exceptions of class [Exception] *)

Lemma _request_except_Exception e :
  isinstance e Exception = true -> _request_except e = Ret None.
Proof. intros H. unfold _request_except. rewrite H. by repeat case_match. Qed.

Lemma urlopen_wrap_Exception hp e :
  isinstance e Exception = true ->
  isinstance (urlopen_wrap hp e) Exception = true.
Proof. intros H. unfold urlopen_wrap. by repeat case_match. Qed.

Lemma adapter_except_Exception e :
  isinstance e Exception = true ->
  isinstance (adapter_except e) Exception = true.
Proof. intros H. unfold adapter_except. by repeat case_match. Qed.

(** ** Which verbs are retried *)




(** [increment] after an error that the policy retries for this verb: a
    failure to connect, an error that is no read error, or any error when
    the verb is one of the allowed ones. *)
Lemma increment_error_any r m u e :
  configured r ->
  _is_connection_error e || negb (_is_read_error e)
    || _is_method_retryable r m = true ->
  exists r',
    configured r' /\ total r' = total r - 1 /\
    length (history r') = S (length (history r)) /\
    increment r m u None (Some e) =
      if Z.ltb (total r - 1) 0 then Raise (exc_from MaxRetryError (cls e))
      else Ret r'.
Proof.
  intros (Hb & Hs & Ha & Hr & Hh & Hf) Hm.
  eexists {| total := total r - 1 |}. split; [| split; [| split]]; cycle 3.
  - unfold increment.
    destruct (_is_connection_error e), (_is_read_error e),
             (_is_method_retryable r m); try discriminate Hm;
      cbn [negb]; rewrite is_exhausted_spec; reflexivity.
  - unfold configured; simpl. repeat split; try done.
    apply Forall_app. split; [done |]. by constructor.
  - reflexivity.
  - simpl. rewrite length_app. simpl. lia.
Qed.












(** ** Backoff *)



Lemma backoffs_from j n :
  (1 <= j)%nat -> backoffs j n = backoff <$> seq (S j) n.
Proof.
  revert j. induction n as [|n IH]; intros j Hj; [done |].
  simpl. destruct j as [|j]; [lia |]. simpl. f_equal. apply IH. lia.
Qed.

Lemma backoffs_first n : backoffs 0 n = backoff <$> seq 2 (n - 1).
Proof.
  destruct n as [|n]; [done |]. simpl.
  rewrite backoffs_from by lia. by rewrite Nat.sub_0_r.
Qed.

Lemma increment_Ret r m u resp err r' :
  increment r m u resp err = Ret r' -> total r' = total r - 1 /\ 0 <= total r'.
Proof.
  unfold increment. rewrite is_exhausted_spec. cbn [total].
  repeat case_match; intros Heq; simplify_eq; cbn [total]; split; lia.
Qed.

(** One exchange makes at most one attempt more than [total] allows
    retries. *)
Lemma urlopen_cap net d hp m u h r st :
  (sends (trace (snd (urlopen net d hp m u h r st)))
   <= sends (trace st) + S (Z.to_nat (total r)))%nat.
Proof.
  revert r st. induction d as [|d IH]; intros r st.
  { simpl. lia. }
  rewrite urlopen_S. cbv zeta.
  pose proof (sends_log_send m u h st) as Hl.
  assert (Hrec : forall r' resp,
    total r' = total r - 1 -> 0 <= total r' ->
    (sends (trace (snd (match sleep r' resp (log (EvSend m u h) st) with
                        | (Raise x, st2) => (Raise x, st2)
                        | (Ret _, st2) => urlopen net d hp m u h r' st2
                        end)))
     <= sends (trace st) + S (Z.to_nat (total r)))%nat).
  { intros r' resp Ht Hge.
    destruct (sleep_only_sleeps r' resp (log (EvSend m u h) st))
      as (_ & tr & Htr & Hn).
    destruct (sleep r' resp _) as [[[] | x] st2]; cbn [snd] in *.
    - etransitivity; [apply IH |]. rewrite Htr, sends_app, Hn, Hl. lia.
    - rewrite Htr, sends_app, Hn, Hl. lia. }
  destruct (net (sends (trace st))) as [a | c].
  - destruct (is_retry _ _ _ _); [| cbn [snd]; rewrite Hl; lia].
    destruct (increment _ _ _ _ _) as [r' | x] eqn:Hi.
    + apply increment_Ret in Hi as [Ht Hge]. by apply Hrec.
    + destruct (raise_on_status r); cbn [snd]; rewrite Hl; lia.
  - destruct (urlopen_catches _); [| cbn [snd]; rewrite Hl; lia].
    destruct (increment _ _ _ _ _) as [r' | x] eqn:Hi;
      [| cbn [snd]; rewrite Hl; lia].
    apply increment_Ret in Hi as [Ht Hge]. by apply Hrec.
Qed.

Lemma HTTPAdapter_send_cap net px m u h st :
  (sends (trace (snd (HTTPAdapter_send net px m u h st)))
   <= sends (trace st) + S (Z.to_nat (total (max_retries (session (self st))))))%nat.
Proof.
  unfold HTTPAdapter_send.
  destruct (valid_timeout _); cbn [negb]; [| cbn [snd trace set_session]; lia].
  match goal with
  | |- context [urlopen ?n ?d ?hp ?m ?u ?h ?r ?s] =>
      pose proof (urlopen_cap n d hp m u h r s) as HU;
      destruct (urlopen n d hp m u h r s) as [[resp | e] st']
  end; exact HU.
Qed.




(** ** Closing the client *)

Lemma akin_log e st1 st2 : akin st1 st2 -> akin (log e st1) (log e st2).
Proof.
  intros (Ht & Hc & Hr).
  split; [unfold log; simpl; by rewrite Ht | by split].
Qed.

Lemma akin_sleep r resp st1 st2 :
  akin st1 st2 ->
  fst (sleep r resp st1) = fst (sleep r resp st2) /\
  akin (snd (sleep r resp st1)) (snd (sleep r resp st2)).
Proof.
  intros H. unfold sleep, sleep_for_retry, _sleep_backoff, time_sleep.
  repeat case_match; simplify_eq; cbn [fst snd]; (split; [done |]);
    try done; by apply akin_log.
Qed.

Lemma akin_urlopen net d hp m u h :
  forall r st1 st2,
    akin st1 st2 ->
    fst (urlopen net d hp m u h r st1) = fst (urlopen net d hp m u h r st2) /\
    akin (snd (urlopen net d hp m u h r st1))
         (snd (urlopen net d hp m u h r st2)).
Proof.
  induction d as [|d IH]; intros r st1 st2 H; [by split |].
  rewrite !urlopen_S. cbv zeta.
  pose proof (akin_log (EvSend m u h) st1 st2 H) as HL.
  assert (Hrec : forall r' resp,
    let k := fun x : res unit * State =>
               match x with
               | (Raise e, st) => (@Raise HTTPResponse e, st)
               | (Ret _, st) => urlopen net d hp m u h r' st
               end in
    fst (k (sleep r' resp (log (EvSend m u h) st1)))
      = fst (k (sleep r' resp (log (EvSend m u h) st2))) /\
    akin (snd (k (sleep r' resp (log (EvSend m u h) st1))))
         (snd (k (sleep r' resp (log (EvSend m u h) st2))))).
  { intros r' resp k. subst k.
    destruct (akin_sleep r' resp _ _ HL) as [Hf Ha].
    destruct (sleep r' resp (log (EvSend m u h) st1)) as [[[] | x1] s1],
             (sleep r' resp (log (EvSend m u h) st2)) as [[[] | x2] s2];
      cbn [fst snd] in *; simplify_eq; [by apply IH | by split]. }
  destruct H as (Ht & Hc & Hr). rewrite Ht.
  destruct (net (sends (trace st2))) as [a | c].
  - destruct (is_retry _ _ _ _); [| by split].
    destruct (increment _ _ _ _ _) as [r' | x].
    + apply Hrec.
    + by destruct (raise_on_status r).
  - destruct (urlopen_catches _); [| by split].
    destruct (increment _ _ _ _ _) as [r' | x]; [| by split].
    apply Hrec.
Qed.

Lemma config_session c c' :
  config c = config c' ->
  verify (session c) = verify (session c') /\
  max_redirects (session c) = max_redirects (session c') /\
  pool_connections (session c) = pool_connections (session c').
Proof. unfold config. intros H. repeat split; congruence. Qed.

Lemma akin_connection_from_host key st1 st2 :
  akin st1 st2 ->
  akin (set_session (connection_from_host key (session (self st1))) st1)
       (set_session (connection_from_host key (session (self st2))) st2).
Proof.
  intros (Ht & Hc & Hr). split; [exact Ht | split; [| exact Hr]].
  unfold config in *. simpl. congruence.
Qed.

Lemma akin_HTTPAdapter_send net o m u h st1 st2 :
  akin st1 st2 ->
  fst (HTTPAdapter_send net o m u h st1)
    = fst (HTTPAdapter_send net o m u h st2) /\
  akin (snd (HTTPAdapter_send net o m u h st1))
       (snd (HTTPAdapter_send net o m u h st2)).
Proof.
  intros H. unfold HTTPAdapter_send.
  pose proof (akin_connection_from_host (pool_key o u) st1 st2 H) as H'.
  destruct (valid_timeout _); cbn [negb]; [| by split].
  pose proof H' as (_ & Hc & Hr).
  pose proof (config_fields _ _ Hc) as (_&_&_&_&_&_&Hmr).
  rewrite Hmr, Hr.
  match goal with
  | |- context [urlopen ?n ?d ?hp ?m ?u ?h ?r ?s1] =>
      match goal with
      | |- context [urlopen n d hp m u h r ?s2] =>
          assert_fails (unify s1 s2);
          destruct (akin_urlopen n d hp m u h r s1 s2 H') as [Hf Ha];
          destruct (urlopen n d hp m u h r s1) as [[r1 | e1] s1'],
                   (urlopen n d hp m u h r s2) as [[r2 | e2] s2']
      end
  end; cbn [fst snd] in *; simplify_eq; by split.
Qed.

Lemma akin_resolve_redirects net n o h :
  forall m resp st1 st2,
    akin st1 st2 ->
    fst (resolve_redirects net n o m h resp st1)
      = fst (resolve_redirects net n o m h resp st2) /\
    akin (snd (resolve_redirects net n o m h resp st1))
         (snd (resolve_redirects net n o m h resp st2)).
Proof.
  induction n as [|n IH]; intros m resp st1 st2 H; simpl.
  { destruct (get_redirect_target resp); by split. }
  destruct (get_redirect_target resp) as [u'|]; [| by split].
  destruct (akin_HTTPAdapter_send net o
              (rebuild_method m (status_code resp)) u' h st1 st2 H) as [Hf Ha].
  destruct (HTTPAdapter_send net o _ u' h st1) as [[r1 | e1] s1'],
           (HTTPAdapter_send net o _ u' h st2) as [[r2 | e2] s2'];
    simpl in *; simplify_eq; [by apply IH | by split].
Qed.

Lemma akin_Session_request net m u kw st1 st2 :
  akin st1 st2 ->
  fst (Session_request net m u kw st1) = fst (Session_request net m u kw st2) /\
  akin (snd (Session_request net m u kw st1))
       (snd (Session_request net m u kw st2)).
Proof.
  intros H. pose proof H as (Ht & Hc & Hr). unfold Session_request.
  destruct (accepted kw); simpl; [| by split].
  pose proof (config_fields _ _ Hc) as (_&_&_&_&Hh&Hp&_).
  pose proof (config_session _ _ Hc) as (Hv&Hm&_).
  unfold prepare_headers, send_options. rewrite Hh, Hp, Hm, Hv.
  match goal with
  | |- context [match ?x with Ret _ => _ | Raise _ => _ end] =>
      destruct x as [hdrs | e]; [| by split]
  end.
  destruct (request_proxies _) as [pg | e]; [| by split].
  match goal with
  | |- context [HTTPAdapter_send ?n ?o ?m ?u ?h st1] =>
      destruct (akin_HTTPAdapter_send n o m u h st1 st2 H) as [Hf Ha];
      destruct (HTTPAdapter_send n o m u h st1) as [[r1 | e1] s1'],
               (HTTPAdapter_send n o m u h st2) as [[r2 | e2] s2']
  end; simpl in *; simplify_eq; [| by split].
  destruct (truthy _); [by apply akin_resolve_redirects | by split].
Qed.

Lemma akin__request net m u kw st1 st2 :
  akin st1 st2 ->
  fst (_request net m u kw st1) = fst (_request net m u kw st2) /\
  akin (snd (_request net m u kw st1)) (snd (_request net m u kw st2)).
Proof.
  intros H. pose proof H as (Ht & Hc & Hr). unfold _request.
  pose proof (config_fields _ _ Hc) as (Hto&Hd&_&Hv&_).
  assert (Hk : request_kwargs (self st1) kw = request_kwargs (self st2) kw).
  { unfold request_kwargs. by rewrite Hto, Hv. }
  set (s1 := if Qpos (delay (self st1)) then _ else _).
  set (s2 := if Qpos (delay (self st2)) then _ else _).
  assert (Hs : akin s1 s2).
  { subst s1 s2. rewrite Hd. destruct (Qpos _); [by apply akin_log | done]. }
  assert (Hs1 : self s1 = self st1)
    by (subst s1; destruct (Qpos (delay (self st1))); reflexivity).
  assert (Hs2 : self s2 = self st2)
    by (subst s2; destruct (Qpos (delay (self st2))); reflexivity).
  rewrite Hs1, Hs2, Hk.
  match goal with
  | |- context [Session_request ?n ?m ?u ?k (log ?e s1)] =>
      destruct (akin_Session_request n m u k (log e s1) (log e s2)
                  (akin_log e s1 s2 Hs)) as [Hf Ha];
      destruct (Session_request n m u k (log e s1)) as [[r1 | e1] s1'],
               (Session_request n m u k (log e s2)) as [[r2 | e2] s2']
  end; simpl in *; simplify_eq; [| by split].
  destruct (set_elapsed_seconds r2); by split.
Qed.

Lemma akin_close st : akin (close st) st.
Proof. by split. Qed.

(** C5, as the code has it: [close] empties the adapter's pool table and
    changes nothing else, and the client has no closed state.  A [get] or
    [post] after [close] has the outcome and the network traffic that it
    would have had without the [close]. *)
Theorem close_only_drops_pools net u d kw st :
  poolmanager (session (self (close st))) = [] /\
  config (self (close st)) = config (self st) /\
  trace (close st) = trace st /\
  fst (get net u kw (close st)) = fst (get net u kw st) /\
  trace (snd (get net u kw (close st))) = trace (snd (get net u kw st)) /\
  fst (post net u d kw (close st)) = fst (post net u d kw st) /\
  trace (snd (post net u d kw (close st))) = trace (snd (post net u d kw st)).
Proof.
  split; [reflexivity |]. split; [reflexivity |]. split; [reflexivity |].
  unfold get, post. destruct (binds_twice kw); [by repeat split |].
  destruct (akin__request net "GET" u kw (close st) st (akin_close st))
    as [Hg [Hgt _]].
  destruct (akin__request net "POST" u (<["data" := d]> kw) (close st) st
              (akin_close st)) as [Hp [Hpt _]].
  by repeat split.
Qed.

(** C5 as stated fails: after [close], a [get] still goes to the network
    and returns the target's answer. *)
Lemma get_after_close_succeeds :
  let st := close (start default_client) in
  ~ (fst (get (always 200) target ∅ st) = Ret None /\
     sends (trace (snd (get (always 200) target ∅ st))) = 0%nat) /\
  (exists resp, fst (get (always 200) target ∅ st) = Ret (Some resp)
                /\ status_code resp = 200) /\
  sends (trace (snd (get (always 200) target ∅ st))) = 1%nat.
Proof.
  intros st. split; [| split].
  - intros [H _]. vm_compute in H. discriminate H.
  - eexists. split; by vm_compute.
  - by vm_compute.
Qed.

(** ** Failures of the transport *)

Lemma increment_no_escape r m u resp err :
  (forall e, err = Some e -> isinstance e Exception = true) ->
  no_escape (increment r m u resp err).
Proof.
  intros H. unfold increment.
  repeat case_match; simplify_eq; simpl; try done; by apply H.
Qed.

Lemma sleep_no_escape r resp st : no_escape (fst (sleep r resp st)).
Proof.
  unfold sleep, sleep_for_retry, get_retry_after, parse_retry_after.
  repeat case_match; simplify_eq; done.
Qed.

Lemma prepare_headers_no_escape s v : no_escape (prepare_headers s v).
Proof. unfold prepare_headers. repeat case_match; done. Qed.

Lemma request_proxies_no_escape v : no_escape (request_proxies v).
Proof. unfold request_proxies. repeat case_match; done. Qed.

Section Faults.

Variable net : nat -> raw.
Hypothesis faults_are_exceptions :
  forall i c, net i = Fault c -> issubclass c Exception = true.

Lemma urlopen_no_escape d hp m u h r st :
  no_escape (fst (urlopen net d hp m u h r st)).
Proof.
  revert r st. induction d as [|d IH]; intros r st; [done |].
  rewrite urlopen_S. cbv zeta.
  assert (Hrec : forall r' resp,
    no_escape (fst (match sleep r' resp (log (EvSend m u h) st) with
                    | (Raise x, st2) => (@Raise HTTPResponse x, st2)
                    | (Ret _, st2) => urlopen net d hp m u h r' st2
                    end))).
  { intros r' resp.
    pose proof (sleep_no_escape r' resp (log (EvSend m u h) st)) as Hs.
    destruct (sleep r' resp _) as [[[] | x] st2]; [apply IH | exact Hs]. }
  destruct (net (sends (trace st))) as [a | c] eqn:Hn.
  - destruct (is_retry _ _ _ _); [| done].
    pose proof (increment_no_escape r m u (Some a) None) as Hi.
    destruct (increment _ _ _ _ _) as [r' | x]; [apply Hrec |].
    destruct (raise_on_status r); [| done]. by apply Hi.
  - pose proof (faults_are_exceptions _ _ Hn) as Hc.
    destruct (urlopen_catches _); [| exact Hc].
    pose proof (increment_no_escape r m u None
                  (Some (urlopen_wrap hp (exc c)))) as Hi.
    destruct (increment _ _ _ _ _) as [r' | x]; [apply Hrec |].
    apply Hi. intros e [= <-]. by apply urlopen_wrap_Exception.
Qed.

Lemma HTTPAdapter_send_no_escape o m u h st :
  no_escape (fst (HTTPAdapter_send net o m u h st)).
Proof.
  unfold HTTPAdapter_send.
  destruct (valid_timeout _); cbn [negb]; [| done].
  match goal with
  | |- context [urlopen ?n ?d ?hp ?m ?u ?h ?r ?s] =>
      pose proof (urlopen_no_escape d hp m u h r s) as HU;
      destruct (urlopen n d hp m u h r s) as [[resp | e] st']
  end; [done |]. by apply adapter_except_Exception.
Qed.

Lemma resolve_redirects_no_escape n o m h resp st :
  no_escape (fst (resolve_redirects net n o m h resp st)).
Proof.
  revert m resp st. induction n as [|n IH]; intros m resp st; simpl.
  { by destruct (get_redirect_target resp). }
  destruct (get_redirect_target resp) as [u'|]; [| done].
  pose proof (HTTPAdapter_send_no_escape o
                (rebuild_method m (status_code resp)) u' h st) as HS.
  destruct (HTTPAdapter_send net o _ u' h st) as [[resp' | e] st'];
    [apply IH | exact HS].
Qed.

Lemma Session_request_no_escape m u kw st :
  no_escape (fst (Session_request net m u kw st)).
Proof.
  unfold Session_request. destruct (accepted kw); [| done]. cbn [negb].
  cbv zeta.
  pose proof (prepare_headers_no_escape (session (self st)) (kw !! "headers"))
    as Hh.
  destruct (prepare_headers _ _) as [hdrs | e]; [| exact Hh].
  pose proof (request_proxies_no_escape (kw !! "proxies")) as Hp.
  destruct (request_proxies _) as [pg | e]; [| exact Hp].
  match goal with
  | |- context [HTTPAdapter_send ?n ?o ?m ?u ?h ?s] =>
      pose proof (HTTPAdapter_send_no_escape o m u h s) as HS;
      destruct (HTTPAdapter_send n o m u h s) as [[resp | e] st']
  end; [| exact HS].
  destruct (truthy _); [apply resolve_redirects_no_escape | done].
Qed.

(** [_request] returns, whatever the transport does. *)
Lemma _request_returns m u kw st :
  exists r, fst (_request net m u kw st) = Ret r.
Proof.
  unfold _request.
  match goal with
  | |- context [Session_request ?n ?m ?u ?k ?s] =>
      pose proof (Session_request_no_escape m u k s) as HS;
      destruct (Session_request n m u k s) as [[resp | e] st']
  end; simpl in *.
  - destruct resp as [sc ru [us | q] rr]; simpl; eauto.
  - rewrite _request_except_Exception by done. eauto.
Qed.

Hypothesis every_attempt_faults : forall i, exists c, net i = Fault c.

Lemma urlopen_raises d hp m u h r st :
  exists e, fst (urlopen net d hp m u h r st) = Raise e.
Proof.
  revert r st. induction d as [|d IH]; intros r st; [by eexists |].
  rewrite urlopen_S. cbv zeta.
  destruct (every_attempt_faults (sends (trace st))) as [c ->].
  destruct (urlopen_catches _); [| by eexists].
  destruct (increment _ _ _ _ _) as [r' | x]; [| by eexists].
  destruct (sleep r' _ _) as [[[] | x] st2]; [apply IH | by eexists].
Qed.

(** When no attempt gets an answer, [_request] returns [None]. *)
Lemma _request_fails m u kw st : fst (_request net m u kw st) = Ret None.
Proof.
  unfold _request.
  match goal with
  | |- context [Session_request ?n ?m ?u ?k ?s] =>
      pose proof (Session_request_no_escape m u k s) as HS;
      assert (exists e, fst (Session_request n m u k s) = Raise e) as [e He]
  end.
  { unfold Session_request, HTTPAdapter_send.
    destruct (accepted _); [| by eexists]. cbn [negb]. cbv zeta.
    destruct (prepare_headers _ _) as [hdrs | e]; [| by eexists].
    destruct (request_proxies _) as [pg | e]; [| by eexists].
    destruct (valid_timeout _); cbn [negb]; [| by eexists].
    match goal with
    | |- context [urlopen ?n ?d ?hp ?m ?u ?h ?r ?s] =>
        destruct (urlopen_raises d hp m u h r s) as [e He];
        destruct (urlopen n d hp m u h r s) as [[resp | e'] st']
    end; simpl in *; [discriminate | by eexists]. }
  match goal with
  | |- context [Session_request ?n ?m ?u ?k ?s] =>
      destruct (Session_request n m u k s) as [[resp | e'] st']
  end; simpl in *; [discriminate |].
  by apply _request_except_Exception.
Qed.

End Faults.

(** C1: whatever the transport raises while a [get] or [post] is under
    way (a timeout, a connection error, too many redirects, any other
    exception of a subclass of [Exception]), the call returns: each handler
    of the dispatcher yields [None], so no such exception reaches the
    caller; and when no attempt gets an answer, the call returns [None]. *)
Theorem transport_faults_become_None net u d kw st :
  (forall i c, net i = Fault c -> issubclass c Exception = true) ->
  binds_twice kw = false ->
  (exists r, fst (get net u kw st) = Ret r) /\
  (exists r, fst (post net u d kw st) = Ret r) /\
  (forall e, isinstance e Exception = true -> _request_except e = Ret None) /\
  _request_except (exc Timeout) = Ret None /\
  _request_except (exc ConnectionError) = Ret None /\
  _request_except (exc TooManyRedirects) = Ret None /\
  ((forall i, exists c, net i = Fault c) ->
   fst (get net u kw st) = Ret None /\ fst (post net u d kw st) = Ret None).
Proof.
  intros Hnet Hb. unfold get, post. rewrite Hb.
  split; [by apply _request_returns |].
  split; [by apply _request_returns |].
  split; [apply _request_except_Exception |].
  do 3 (split; [reflexivity |]).
  intros Hf. split; by apply _request_fails.
Qed.

Lemma transport_faults_become_None_witness :
  let net := fun i : nat => if Nat.even i then Fault ConnectTimeoutError
                            else Fault ReadTimeoutError in
  fst (get net target ∅ (start default_client)) = Ret None /\
  fst (post net target PNone ∅ (start default_client)) = Ret None.
Proof.
  intros net.
  assert (forall i c, net i = Fault c -> issubclass c Exception = true) as H1.
  { intros i c. unfold net. destruct (Nat.even i); intros [= <-]; reflexivity. }
  assert (forall i, exists c, net i = Fault c) as H2.
  { intros i. unfold net. destruct (Nat.even i); by eexists. }
  exact (proj2 (proj2 (proj2 (proj2 (proj2 (proj2
           (transport_faults_become_None net target PNone ∅
              (start default_client) H1 eq_refl)))))) H2).
Defined.

(** * Further properties of the dispatcher *)

(** ** What a successful call returns *)

(** An exchange returns only what the target answered. *)
Lemma urlopen_Ret_answer net d hp m u h :
  forall r st a,
    fst (urlopen net d hp m u h r st) = Ret a -> exists i, net i = Answer a.
Proof.
  induction d as [|d IH]; intros r st a.
  { change (urlopen net 0 hp m u h r st) with
      (@Raise HTTPResponse (exc RecursionError), st). discriminate. }
  rewrite urlopen_S. cbv zeta.
  destruct (net (sends (trace st))) as [a' | c] eqn:Hn.
  - destruct (is_retry _ _ _ _).
    + destruct (increment _ _ _ _ _) as [r' | x].
      * destruct (sleep r' _ _) as [[[] | x] st2]; [apply IH | discriminate].
      * destruct (raise_on_status r); [discriminate |].
        intros [= <-]. eauto.
    + intros [= <-]. eauto.
  - destruct (urlopen_catches _); [| discriminate].
    destruct (increment _ _ _ _ _) as [r' | x]; [| discriminate].
    destruct (sleep r' _ _) as [[[] | x] st2]; [apply IH | discriminate].
Qed.

(** A response as [HTTPAdapter.send] hands it on, built from an answer of
    the target. *)
Lemma HTTPAdapter_send_Ret net o m u h st resp :
  fst (HTTPAdapter_send net o m u h st) = Ret resp ->
  elapsed resp = Timedelta (measured_us (raw_response resp)) /\
  status_code resp = status (raw_response resp) /\
  exists i, net i = Answer (raw_response resp).
Proof.
  unfold HTTPAdapter_send.
  destruct (valid_timeout _); cbn [negb]; [| discriminate].
  match goal with
  | |- context [urlopen ?n ?d ?hp ?m ?u ?h ?r ?s] =>
      pose proof (urlopen_Ret_answer n d hp m u h r s) as HU;
      destruct (urlopen n d hp m u h r s) as [[a | e] st']
  end.
  - simpl. intros [= <-]. simpl. repeat split. by apply HU.
  - discriminate.
Qed.

Lemma resolve_redirects_Ret net n o h :
  forall m resp0 st resp,
    elapsed resp0 = Timedelta (measured_us (raw_response resp0)) /\
    status_code resp0 = status (raw_response resp0) /\
    (exists i, net i = Answer (raw_response resp0)) ->
    fst (resolve_redirects net n o m h resp0 st) = Ret resp ->
    elapsed resp = Timedelta (measured_us (raw_response resp)) /\
    status_code resp = status (raw_response resp) /\
    exists i, net i = Answer (raw_response resp).
Proof.
  induction n as [|n IH]; intros m resp0 st resp H0; simpl.
  { destruct (get_redirect_target resp0); [discriminate |]. by intros [= <-]. }
  destruct (get_redirect_target resp0) as [u'|]; [| by intros [= <-]].
  pose proof (HTTPAdapter_send_Ret net o
                (rebuild_method m (status_code resp0)) u' h st) as HS.
  destruct (HTTPAdapter_send net o _ u' h st) as [[resp' | e] st'];
    simpl in *; [| discriminate].
  apply IH. by apply HS.
Qed.

Lemma Session_request_Ret net m u kw st resp :
  fst (Session_request net m u kw st) = Ret resp ->
  elapsed resp = Timedelta (measured_us (raw_response resp)) /\
  status_code resp = status (raw_response resp) /\
  exists i, net i = Answer (raw_response resp).
Proof.
  unfold Session_request. destruct (accepted kw); [| discriminate].
  cbn [negb]. cbv zeta.
  destruct (prepare_headers _ _) as [hdrs | e]; [| discriminate].
  destruct (request_proxies _) as [pg | e]; [| discriminate].
  match goal with
  | |- context [HTTPAdapter_send ?n ?o ?m ?u ?h ?s] =>
      pose proof (HTTPAdapter_send_Ret n o m u h s) as HS;
      destruct (HTTPAdapter_send n o m u h s) as [[resp0 | e] st']
  end; simpl in *; [| discriminate].
  destruct (truthy _).
  - apply resolve_redirects_Ret. by apply HS.
  - intros [= <-]. by apply HS.
Qed.

Lemma _request_Some net m u kw st resp :
  fst (_request net m u kw st) = Ret (Some resp) ->
  elapsed resp = Seconds (total_seconds (measured_us (raw_response resp))) /\
  status_code resp = status (raw_response resp) /\
  exists i, net i = Answer (raw_response resp).
Proof.
  unfold _request.
  match goal with
  | |- context [Session_request ?n ?m ?u ?k ?s] =>
      pose proof (Session_request_Ret n m u k s) as HS;
      destruct (Session_request n m u k s) as [[resp0 | e] st']
  end; simpl in *.
  - destruct (HS resp0 eq_refl) as (He & Hs & Hi).
    unfold set_elapsed_seconds. rewrite He. simpl. intros [= <-]. simpl.
    by repeat split.
  - unfold _request_except. repeat case_match; discriminate.
Qed.

(** X1: whenever [get] or [post] returns a response, the response is an
    answer that the target gave to one of the attempts, its [status_code] is
    that answer's status, and its [elapsed] is a plain number of seconds
    (some number of microseconds divided by a million), never a
    [timedelta]. *)
Theorem success_is_an_answer_in_seconds net u d kw st resp :
  fst (get net u kw st) = Ret (Some resp) \/
  fst (post net u d kw st) = Ret (Some resp) ->
  (exists us, elapsed resp = Seconds (total_seconds us)) /\
  status_code resp = status (raw_response resp) /\
  exists i, net i = Answer (raw_response resp).
Proof.
  unfold get, post. destruct (binds_twice kw); [by intros [H | H] |].
  intros [H | H]; apply _request_Some in H as (He & Hs & Hi); eauto.
Qed.

Lemma success_is_an_answer_in_seconds_witness :
  exists resp,
    fst (get (always 200) target ∅ (start default_client)) = Ret (Some resp) /\
    (exists us, elapsed resp = Seconds (total_seconds us)) /\
    status_code resp = 200.
Proof.
  eexists. split; [by vm_compute |].
  match goal with
  | |- (exists us, elapsed ?r = _) /\ _ =>
      destruct (success_is_an_answer_in_seconds (always 200) target PNone ∅
                  (start default_client) r) as (He & Hs & _);
      [left; by vm_compute | split; [exact He | exact Hs]]
  end.
Defined.

(** ** Keyword arguments that the call cannot take *)

Lemma accepted_false (kw : gmap string pyval) :
  accepted kw = false <->
  exists k v, kw !! k = Some v /\ mem_str k request_params = false.
Proof.
  split.
  - intros H. unfold accepted in H.
    assert (exists k, In k (map fst (map_to_list kw)) /\
                      mem_str k request_params = false) as (k & Hin & Hk).
    { revert H. generalize (map fst (map_to_list kw)). intros l.
      induction l as [|x l IH]; cbn [forallb In]; [discriminate |].
      destruct (mem_str x request_params) eqn:E; cbn [andb].
      - intros H. destruct (IH H) as (k & ? & ?). eauto.
      - eauto. }
    apply in_map_iff in Hin as ([k' v] & <- & Hin).
    apply list_elem_of_In, elem_of_map_to_list in Hin. eauto.
  - intros (k & v & Hl & Hk). apply not_true_iff_false. intros Ha.
    rewrite accepted_spec in Ha. specialize (Ha k v Hl). congruence.
Qed.

Lemma rejected_request_kwargs c kw :
  accepted kw = false -> accepted (request_kwargs c kw) = false.
Proof.
  rewrite !accepted_false. intros (k & v & Hl & Hk). exists k, v.
  split; [| done]. unfold request_kwargs.
  repeat (rewrite lookup_setdefault; case_decide;
          [subst; discriminate Hk |]).
  exact Hl.
Qed.

(** [_request] with a keyword that [Session.request] does not take. *)
Lemma _request_rejected net m u kw st :
  accepted kw = false ->
  _request net m u kw st = (Ret None, before_send_log m u kw st).
Proof.
  intros H. unfold _request, Session_request, before_send_log.
  set (st1 := if Qpos (delay (self st)) then _ else _).
  assert (Hself : self st1 = self st)
    by (subst st1; destruct (Qpos (delay (self st))); reflexivity).
  rewrite Hself, (rejected_request_kwargs _ _ H). reflexivity.
Qed.

(** X2: a keyword argument that [Session.request] does not take makes
    [get] and [post] return [None] without any transport attempt (the
    [TypeError] of the call is swallowed like a network failure); a keyword
    named [method], [url] or [self] makes them raise [TypeError] to the
    caller, with nothing sent and nothing slept. *)
Theorem unusable_keywords net u d kw st :
  (binds_twice kw = true ->
   get net u kw st = (Raise (exc TypeError), st) /\
   post net u d kw st = (Raise (exc TypeError), st)) /\
  (binds_twice kw = false -> accepted kw = false ->
   fst (get net u kw st) = Ret None /\
   sends (trace (snd (get net u kw st))) = sends (trace st) /\
   fst (post net u d kw st) = Ret None /\
   sends (trace (snd (post net u d kw st))) = sends (trace st)).
Proof.
  unfold get, post. split; intros Hb; rewrite Hb; [done |].
  intros Ha.
  assert (accepted (<["data" := d]> kw) = false) as Hp.
  { apply accepted_false. apply accepted_false in Ha as (k & v & Hl & Hk).
    exists k, v. split; [| done].
    rewrite lookup_insert_ne; [done |]. intros <-. discriminate Hk. }
  rewrite !_request_rejected by done. cbn [fst snd].
  unfold before_send_log, log. cbn [trace].
  rewrite !sends_app.
  repeat split; destruct (Qpos _); unfold time_sleep, log; cbn [trace];
    rewrite ?sends_app; unfold sends; simpl; lia.
Qed.

Lemma unusable_keywords_witness :
  fst (get (always 200) target {[ "retries" := PInt 5 ]}
           (start default_client)) = Ret None /\
  sends (trace (snd (get (always 200) target {[ "retries" := PInt 5 ]}
                         (start default_client)))) = 0%nat /\
  get (always 200) target {[ "method" := PStr "HEAD" ]} (start default_client)
    = (Raise (exc TypeError), start default_client).
Proof.
  pose proof (unusable_keywords (always 200) target PNone
                {[ "retries" := PInt 5 ]} (start default_client)) as [_ H].
  destruct (H eq_refl eq_refl) as (Hg & Hs & _).
  pose proof (unusable_keywords (always 200) target PNone
                {[ "method" := PStr "HEAD" ]} (start default_client)) as [H' _].
  destruct (H' eq_refl) as [Hm _].
  split; [exact Hg |]. split; [exact Hs | exact Hm].
Defined.

(** ** Exceptions that are not failures of the transport *)

Lemma urlopen_catches_Exception c :
  issubclass c Exception = false -> urlopen_catches (exc c) = false.
Proof. destruct c; try discriminate; reflexivity. Qed.

Lemma not_Exception_passes c :
  issubclass c Exception = false ->
  _request_except (adapter_except (exc c)) = Raise (exc c).
Proof. destruct c; try discriminate; reflexivity. Qed.

(** X3: an exception that is no subclass of [Exception]
    ([KeyboardInterrupt], [SystemExit]), raised during the first attempt of
    a call that requests can prepare, passes every handler: [get] and
    [post] raise it to the caller, after that one attempt and without a
    retry. *)
Theorem interrupt_reaches_the_caller net u d kw st c :
  usable (self st) u kw = true -> body d = true ->
  (1 <= room st)%nat ->
  net (sends (trace st)) = Fault c ->
  issubclass c Exception = false ->
  fst (get net u kw st) = Raise (exc c) /\
  sends (trace (snd (get net u kw st))) = S (sends (trace st)) /\
  fst (post net u d kw st) = Raise (exc c) /\
  sends (trace (snd (post net u d kw st))) = S (sends (trace st)).
Proof.
  intros Hu Hd Hroom Hnet Hc.
  assert (forall m kw', usable (self st) u kw' = true ->
    fst (_request net m u kw' st) = Raise (exc c) /\
    sends (trace (snd (_request net m u kw' st))) = S (sends (trace st))) as H.
  { intros m kw' Hu'.
    assert (exists st', exchange net m u kw' st = (Raise (exc c), st') /\
              sends (trace st') = S (sends (trace st))) as (st' & Hex & Hn).
    { eexists. split.
      - unfold exchange. destruct (room st) as [|dp]; [lia |].
        rewrite urlopen_S. cbv zeta.
        rewrite before_send_sends, Hnet, urlopen_catches_Exception by done.
        reflexivity.
      - by rewrite sends_log_send, before_send_sends. }
    rewrite (_request_raise net m u kw' st (exc c) st' Hu' Hex).
    cbn [fst snd]. by rewrite not_Exception_passes. }
  unfold get, post. rewrite (usable_binds_once _ _ _ Hu).
  destruct (H "GET" kw Hu) as [? ?].
  destruct (H "POST" (<["data" := d]> kw) (usable_data _ _ _ _ Hu Hd))
    as [? ?].
  done.
Qed.

Lemma interrupt_reaches_the_caller_witness :
  fst (get (fun _ => Fault KeyboardInterrupt) target ∅ (start default_client))
    = Raise (exc KeyboardInterrupt) /\
  sends (trace (snd (get (fun _ => Fault KeyboardInterrupt) target ∅
                         (start default_client)))) = 1%nat.
Proof.
  destruct (interrupt_reaches_the_caller (fun _ => Fault KeyboardInterrupt)
              target PNone ∅ (start default_client)
              KeyboardInterrupt ltac:(by vm_compute) eq_refl
              ltac:(vm_compute; lia) eq_refl eq_refl) as (Hg & Hs & _).
  split; [exact Hg | exact Hs].
Defined.

(** ** A target that cannot be reached *)

(** [increment] after an error, for a verb that the policy retries. *)
Lemma increment_error r m u e :
  configured r -> _is_method_retryable r m = true ->
  exists r',
    configured r' /\ total r' = total r - 1 /\
    length (history r') = S (length (history r)) /\
    increment r m u None (Some e) =
      if Z.ltb (total r - 1) 0 then Raise (exc_from MaxRetryError (cls e))
      else Ret r'.
Proof.
  intros Hc Hm. apply increment_error_any; [exact Hc |].
  rewrite Hm. by rewrite orb_true_r.
Qed.

(** Every attempt fails with an error that [urlopen] handles: [S n]
    attempts for [n] allowed retries, with the backoff in between, then
    [MaxRetryError]. *)
Lemma urlopen_unreachable net hp m u h n :
  (forall i, exists c, net i = Fault c /\ urlopen_catches (exc c) = true) ->
  mem_str (upper m) ["GET"; "POST"; "HEAD"] = true ->
  forall d r st,
    configured r -> Z.to_nat (total r) = n -> (n < d)%nat ->
    exists x st',
      urlopen net d hp m u h r st = (Raise x, st') /\
      cls x = MaxRetryError /\
      exists tr,
        trace st' = trace st ++ tr /\ sends tr = S n /\
        sleeps tr = backoffs (length (history r)) n.
Proof.
  intros Hnet Hm. induction n as [|n IH]; intros d r st Hc Ht Hd;
    (destruct d as [|d]; [lia |]);
    rewrite urlopen_S; cbv zeta;
    destruct (Hnet (sends (trace st))) as (c & Hn & Hcatch);
    rewrite Hn, Hcatch;
    destruct (increment_error r m u (urlopen_wrap hp (exc c)) Hc)
      as (r' & Hc' & Ht' & Hl' & ->);
    try (rewrite configured_retryable; done).
  - destruct (Z.ltb_spec (total r - 1) 0) as [_ | Hge]; [| lia].
    eexists _, _. split; [reflexivity |]. split; [reflexivity |].
    exists [EvSend m u h]. by repeat split.
  - destruct (Z.ltb_spec (total r - 1) 0) as [Hlt | _]; [lia |].
    rewrite (sleep_backoff_none r' _ Hc'), Hl'.
    set (st1 := if (S (length (history r)) <=? 1)%nat then _ else _).
    destruct (IH d r' st1 Hc' ltac:(lia) ltac:(lia))
      as (x & st' & -> & Hx & tr & Htr & Hsn & Hsl).
    eexists _, _. split; [reflexivity |]. split; [exact Hx |].
    exists (EvSend m u h
              :: (if (S (length (history r)) <=? 1)%nat then []
                  else [EvSleep (backoff (S (length (history r))))]) ++ tr).
    split; [| split].
    + rewrite Htr. subst st1. unfold time_sleep, log.
      destruct (S (length (history r)) <=? 1)%nat; simpl;
        by rewrite <- !app_assoc.
    + change (sends ([EvSend m u h] ++
                (if (S (length (history r)) <=? 1)%nat then []
                 else [EvSleep (backoff (S (length (history r))))]) ++ tr)
              = S (S n)).
      rewrite !sends_app, Hsn.
      destruct (S (length (history r)) <=? 1)%nat; unfold sends; simpl; lia.
    + change (sleeps ([EvSend m u h] ++
                (if (S (length (history r)) <=? 1)%nat then []
                 else [EvSleep (backoff (S (length (history r))))]) ++ tr)
              = backoffs (length (history r)) (S n)).
      rewrite !sleeps_app, Hsl, Hl'. cbn [backoffs].
      by destruct (S (length (history r)) <=? 1)%nat.
Qed.

(** X4: when every attempt fails with an error of the transport that
    urllib3 handles (no connection, timeout, reset, TLS failure), a [get]
    or [post] that requests can prepare, with room in the interpreter for
    the [k] nested retries, makes exactly [1 + k] attempts for [k]
    configured retries, sleeps the backoff schedule in between and returns
    [None]. *)
Theorem unreachable_target net u d kw st k :
  max_retries (session (self st)) = retry_strategy k ->
  usable (self st) u kw = true -> body d = true ->
  (Z.to_nat k < room st)%nat ->
  (forall i, exists c, net i = Fault c /\ urlopen_catches (exc c) = true) ->
  fst (get net u kw st) = Ret None /\
  sends (trace (snd (get net u kw st)))
    = (sends (trace st) + 1 + Z.to_nat k)%nat /\
  sleeps (trace (snd (get net u kw st)))
    = sleeps (trace st)
      ++ (if Qpos (delay (self st)) then [delay (self st)] else [])
      ++ (backoff <$> seq 2 (Z.to_nat k - 1)) /\
  fst (post net u d kw st) = Ret None /\
  sends (trace (snd (post net u d kw st)))
    = (sends (trace st) + 1 + Z.to_nat k)%nat.
Proof.
  intros Hmr Hu Hd Hroom Hnet.
  assert (forall m kw', usable (self st) u kw' = true ->
            mem_str (upper (upper m)) ["GET"; "POST"; "HEAD"] = true ->
    exists st' tr,
      _request net m u kw' st = (Ret None, st') /\
      trace st' = trace (before_send m u kw' st) ++ tr /\
      sends tr = S (Z.to_nat k) /\
      sleeps tr = backoffs 0 (Z.to_nat k)) as H.
  { intros m kw' Hu' Hm.
    destruct (urlopen_unreachable net
                (bool_decide (is_Some (select_proxy u
                   (o_proxies (call_options (self st) kw')))))
                (upper m) u
                (sent_headers (session (self st)) (request_kwargs (self st) kw'))
                (Z.to_nat k) Hnet Hm (room st) (retry_strategy k)
                (before_send m u kw' st)
                (configured_retry_strategy k) eq_refl Hroom)
      as (x & st' & Heq & Hx & tr & Htr & Hn & Hsl).
    exists st', tr. split; [| done].
    rewrite (_request_raise net m u kw' st x st').
    - rewrite _request_except_Exception; [done |].
      apply adapter_except_Exception. unfold isinstance. by rewrite Hx.
    - exact Hu'.
    - unfold exchange. rewrite Hmr. exact Heq. }
  unfold get, post. rewrite (usable_binds_once _ _ _ Hu).
  destruct (H "GET" kw Hu eq_refl) as (sg & tg & -> & Htg & Hng & Hsg).
  destruct (H "POST" (<["data" := d]> kw) (usable_data _ _ _ _ Hu Hd) eq_refl)
    as (sp & tp & -> & Htp & Hnp & _).
  cbn [fst snd].
  rewrite Htg, Htp, !sends_app, !before_send_sends, Hng, Hnp.
  repeat split; try lia.
  rewrite before_send_trace, !sleeps_app, Hsg, backoffs_first.
  destruct (Qpos _); unfold sleeps; simpl; rewrite <- ?app_assoc; reflexivity.
Qed.

Lemma unreachable_target_witness :
  let net := fun _ : nat => Fault NewConnectionError in
  fst (get net target ∅ (start default_client)) = Ret None /\
  sends (trace (snd (get net target ∅ (start default_client)))) = 4%nat /\
  sleeps (trace (snd (get net target ∅ (start default_client))))
    = [backoff 2; backoff 3].
Proof.
  intros net.
  assert (forall i, exists c, net i = Fault c
                              /\ urlopen_catches (exc c) = true) as Hn.
  { intros i. eexists. split; reflexivity. }
  destruct (unreachable_target net target PNone ∅ (start default_client) 3
              eq_refl ltac:(by vm_compute) eq_refl ltac:(vm_compute; lia) Hn)
    as (Hg & Hs & Hsl & _).
  split; [exact Hg |]. split; [exact Hs | exact Hsl].
Defined.

(** ** Redirects *)

(** An exchange that the first answer ends. *)
Lemma HTTPAdapter_send_final net o m u h st a k :
  valid_timeout (o_timeout o) = true ->
  (1 <= room st)%nat ->
  max_retries (session (self st)) = retry_strategy k ->
  net (sends (trace st)) = Answer a ->
  is_retry (retry_strategy k) m (status a)
           (has_retry_after a) = false ->
  HTTPAdapter_send net o m u h st =
  (Ret {| status_code := status a; resp_url := u;
          elapsed := Timedelta (measured_us a); raw_response := a |},
   log (EvSend m u h)
       (set_session
          (connection_from_host (pool_key o u) (session (self st))) st)).
Proof.
  intros Hv Hroom Hmr Hn Hr. rewrite HTTPAdapter_send_eq by exact Hv.
  destruct (room st) as [|dp]; [lia |]. rewrite Hmr.
  rewrite (urlopen_final net _ _ m u h (retry_strategy k) _ a); [done | | done].
  exact Hn.
Qed.

Lemma before_send_max_retries m u kw st :
  max_retries (session (self (before_send m u kw st)))
  = max_retries (session (self st)).
Proof.
  pose proof (before_send_self m u kw st) as H.
  by apply config_fields in H as (_&_&_&_&_&_&->).
Qed.

Lemma is_retry_redirect r m st_code b :
  configured r -> mem_Z st_code REDIRECT_STATI = true ->
  is_retry r m st_code b = false.
Proof.
  intros (_ & Hs & _) H. unfold is_retry. rewrite Hs.
  destruct (_is_method_retryable r m); [| reflexivity]. cbn [negb].
  unfold mem_Z, REDIRECT_STATI in H. simpl in H.
  repeat (apply orb_prop in H as [H | H];
          [apply Z.eqb_eq in H; subst st_code; simpl;
           by rewrite andb_false_r |]).
  discriminate.
Qed.

(** A target that answers every attempt with a redirect is followed
    [n] times, then [TooManyRedirects] is raised. *)
Lemma resolve_redirects_loop net o h k :
  valid_timeout (o_timeout o) = true ->
  (forall i, exists a u', net i = Answer a
                       /\ mem_Z (status a) REDIRECT_STATI = true
                       /\ location a = Some u' /\ url_ok u' = true) ->
  forall n m resp st,
    (1 <= room st)%nat ->
    max_retries (session (self st)) = retry_strategy k ->
    is_Some (get_redirect_target resp) ->
    exists st',
      resolve_redirects net n o m h resp st
        = (Raise (exc TooManyRedirects), st') /\
      sends (trace st') = (sends (trace st) + n)%nat.
Proof.
  intros Hv Hnet. induction n as [|n IH]; intros m resp st Hroom Hmr [u' Hu];
    cbn [resolve_redirects]; rewrite Hu.
  { eexists. split; [reflexivity | lia]. }
  destruct (Hnet (sends (trace st))) as (a & ua & Ha & Hst & Hloc & _).
  rewrite (HTTPAdapter_send_final net o _ u' h st a k Hv Hroom Hmr Ha)
    by (apply is_retry_redirect; [apply configured_retry_strategy | done]).
  match goal with
  | |- context [resolve_redirects net n o ?m' h ?r ?s] =>
      destruct (IH m' r s) as (st' & -> & Hn)
  end.
  - exact Hroom.
  - exact Hmr.
  - unfold get_redirect_target. cbn [status_code raw_response].
    by rewrite Hst, Hloc.
  - eexists. split; [reflexivity |]. rewrite Hn, sends_log_send.
    cbn [trace set_session]. lia.
Qed.

(** X5: against a target that answers every attempt with a redirect to a
    well-formed URL, a [get] or [post] that requests can prepare and that
    does not switch redirects off follows [max_redirects] of them (30 for a
    client built by [__init__]) and then returns [None]: one attempt more
    than [max_redirects] in all, whatever the number of retries. *)
Theorem redirect_loop_fails net u d kw st k :
  max_retries (session (self st)) = retry_strategy k ->
  usable (self st) u kw = true -> body d = true ->
  (1 <= room st)%nat ->
  kw !! "allow_redirects" = None ->
  (forall i, exists a u', net i = Answer a
                       /\ mem_Z (status a) REDIRECT_STATI = true
                       /\ location a = Some u' /\ url_ok u' = true) ->
  fst (get net u kw st) = Ret None /\
  sends (trace (snd (get net u kw st)))
    = (sends (trace st) + 1 + max_redirects (session (self st)))%nat /\
  fst (post net u d kw st) = Ret None /\
  sends (trace (snd (post net u d kw st)))
    = (sends (trace st) + 1 + max_redirects (session (self st)))%nat.
Proof.
  intros Hmr Hu Hd Hroom Har Hnet.
  assert (forall m kw', usable (self st) u kw' = true ->
                        kw' !! "allow_redirects" = None ->
    fst (_request net m u kw' st) = Ret None /\
    sends (trace (snd (_request net m u kw' st)))
      = (sends (trace st) + 1 + max_redirects (session (self st)))%nat) as H.
  { intros m kw' Hu' Hk.
    destruct (usable_session _ _ _ Hu') as (_ & _ & _ & Hv & _).
    destruct (Hnet (sends (trace st))) as (a & ua & Hn & Hst & Hloc & _).
    rewrite (_request_usable net m u kw' st Hu').
    rewrite (exchange_final net m u kw' st a Hroom Hn)
      by (rewrite Hmr; apply is_retry_redirect;
          [apply configured_retry_strategy | done]).
    cbv zeta.
    destruct (lookup_request_kwargs (self st) kw') as (_ & Hal & _).
    rewrite Hal, Hk. simpl (truthy _). cbv iota.
    match goal with
    | |- context [resolve_redirects net ?n ?o ?m' ?h ?r ?s] =>
        destruct (resolve_redirects_loop net o h k Hv Hnet n m' r s)
          as (st' & -> & Hs)
    end.
    - unfold log. cbn [room]. by rewrite before_send_room.
    - unfold log. cbn [self]. by rewrite before_send_max_retries.
    - unfold get_redirect_target. cbn [status_code raw_response].
      by rewrite Hst, Hloc.
    - cbn [fst snd]. split; [reflexivity |].
      rewrite Hs, sends_log_send, before_send_sends. lia. }
  unfold get, post. rewrite (usable_binds_once _ _ _ Hu).
  destruct (H "GET" kw Hu Har) as [? ?].
  destruct (H "POST" (<["data" := d]> kw) (usable_data _ _ _ _ Hu Hd))
    as [? ?].
  { by rewrite lookup_insert_ne. }
  done.
Qed.

Lemma redirect_loop_fails_witness :
  let net := fun _ : nat =>
    Answer {| status := 302; retry_after := None;
              location := Some target; measured_us := 900 |} in
  fst (get net target ∅ (start default_client)) = Ret None /\
  sends (trace (snd (get net target ∅ (start default_client)))) = 31%nat.
Proof.
  intros net.
  assert (forall i, exists a u', net i = Answer a
                       /\ mem_Z (status a) REDIRECT_STATI = true
                       /\ location a = Some u' /\ url_ok u' = true) as Hn.
  { intros i. eexists _, _. repeat split; reflexivity. }
  destruct (redirect_loop_fails net target PNone ∅ (start default_client) 3
              eq_refl ltac:(by vm_compute) eq_refl ltac:(vm_compute; lia)
              eq_refl Hn) as (Hg & Hs & _).
  split; [exact Hg | exact Hs].
Defined.










(** ** A target that asks to wait *)




(** ** Bounds on what one call can cost *)

Lemma resolve_redirects_cap net n o h :
  forall m resp st,
    (sends (trace (snd (resolve_redirects net n o m h resp st)))
     <= sends (trace st)
        + n * S (Z.to_nat (total (max_retries (session (self st))))))%nat.
Proof.
  induction n as [|n IH]; intros m resp st; cbn [resolve_redirects].
  { destruct (get_redirect_target resp); simpl; lia. }
  destruct (get_redirect_target resp) as [u'|]; [| simpl; lia].
  pose proof (HTTPAdapter_send_cap net o
                (rebuild_method m (status_code resp)) u' h st) as Hc.
  pose proof (grows_HTTPAdapter_send (fun _ => True) ltac:(done) h ltac:(done)
                net o (rebuild_method m (status_code resp)) u' st) as [Hg _].
  apply config_fields in Hg as (_&_&_&_&_&_&Hr).
  destruct (HTTPAdapter_send net o _ u' h st) as [[resp' | e] st'];
    cbn [fst snd] in *.
  - specialize (IH (rebuild_method m (status_code resp)) resp' st').
    rewrite <- Hr in IH. lia.
  - lia.
Qed.

(** X9: whatever the target does, a [get] or [post] makes at most
    [(1 + max_redirects) * (1 + k)] transport attempts, for [k] allowed
    retries: 124 for the default client.  No call goes on for ever. *)
Theorem attempts_are_bounded net u d kw st :
  let bound :=
    (S (max_redirects (session (self st)))
     * S (Z.to_nat (total (max_retries (session (self st))))))%nat in
  (sends (trace (snd (get net u kw st))) <= sends (trace st) + bound)%nat /\
  (sends (trace (snd (post net u d kw st))) <= sends (trace st) + bound)%nat.
Proof.
  intros bound.
  assert (forall m kw',
    (sends (trace (snd (_request net m u kw' st)))
     <= sends (trace st) + bound)%nat) as H.
  { intros m kw'. rewrite _request_eq.
    assert ((sends (trace (snd (Session_request net m u
                                  (request_kwargs (self st) kw')
                                  (before_send_log m u kw' st))))
             <= sends (trace st) + bound)%nat) as HS.
    { unfold Session_request. destruct (accepted _); cbn [negb];
        [| cbn [snd]; rewrite before_send_log_sends; lia].
      cbv zeta.
      destruct (prepare_headers _ _) as [hdrs | e];
        [| cbn [snd]; rewrite before_send_log_sends; lia].
      destruct (request_proxies _) as [pg | e];
        [| cbn [snd]; rewrite before_send_log_sends; lia].
      rewrite !before_send_log_self.
      match goal with
      | |- context [HTTPAdapter_send net ?o ?m' ?u' ?h ?s] =>
          pose proof (HTTPAdapter_send_cap net o m' u' h s) as Hc;
          pose proof (grows_HTTPAdapter_send (fun _ => True) ltac:(done) h
                        ltac:(done) net o m' u' s) as [Hg _];
          destruct (HTTPAdapter_send net o m' u' h s) as [[resp | e] st']
      end; cbn [fst snd] in *;
        rewrite before_send_log_self, before_send_log_sends in *;
        [| subst bound; lia].
      apply config_fields in Hg as (_&_&_&_&_&_&Hr).
      destruct (truthy _); [| cbn [snd]; subst bound; lia].
      match goal with
      | |- context [resolve_redirects net ?n ?o ?m' ?h ?r ?s] =>
          pose proof (resolve_redirects_cap net n o h m' r s) as Hrc
      end.
      rewrite <- Hr in Hrc. subst bound. lia. }
    revert HS.
    destruct (Session_request net m u _ _) as [[resp | e] st']; cbn [snd].
    - by destruct (set_elapsed_seconds resp).
    - done. }
  unfold get, post. destruct (binds_twice kw); cbn [snd]; [lia |].
  split; apply H.
Qed.

(** ** Statuses that are never handed to the caller *)

Lemma increment_keeps r m u resp err r' :
  increment r m u resp err = Ret r' ->
  status_forcelist r' = status_forcelist r /\
  allowed_methods r' = allowed_methods r /\
  raise_on_status r' = raise_on_status r.
Proof.
  unfold increment. repeat case_match; intros Heq; by simplify_eq.
Qed.

Lemma urlopen_Ret_unforced net d hp m u h :
  forall r st a,
    status_forcelist r = [429; 500; 502; 503; 504] ->
    _is_method_retryable r m = true ->
    raise_on_status r = true ->
    fst (urlopen net d hp m u h r st) = Ret a -> forced (status a) = false.
Proof.
  induction d as [|d IH]; intros r st a Hs Hm Hr.
  { change (urlopen net 0 hp m u h r st) with
      (@Raise HTTPResponse (exc RecursionError), st). discriminate. }
  assert (forall resp err r', increment r m u resp err = Ret r' ->
            status_forcelist r' = [429; 500; 502; 503; 504] /\
            _is_method_retryable r' m = true /\
            raise_on_status r' = true) as Hinc.
  { intros resp err r' Hi. apply increment_keeps in Hi as (H1 & H2 & H3).
    unfold _is_method_retryable in *. by rewrite H1, H2, H3. }
  rewrite urlopen_S. cbv zeta.
  destruct (net (sends (trace st))) as [a' | c].
  - destruct (is_retry r m (status a') _) eqn:Hi.
    + destruct (increment r m u (Some a') None) as [r' | x] eqn:He.
      * destruct (Hinc _ _ _ He) as (?&?&?).
        destruct (sleep r' _ _) as [[[] | x] st2]; [by apply IH | discriminate].
      * rewrite Hr. discriminate.
    + intros [= <-]. unfold is_retry in Hi. rewrite Hm, Hs in Hi.
      cbn [negb] in Hi. unfold forced.
      destruct (mem_Z (status a') [429; 500; 502; 503; 504]); [| done].
      by rewrite bool_decide_eq_false_2 in Hi.
  - destruct (urlopen_catches _); [| discriminate].
    destruct (increment r m u None _) as [r' | x] eqn:He; [| discriminate].
    destruct (Hinc _ _ _ He) as (?&?&?).
    destruct (sleep r' _ _) as [[[] | x] st2]; [by apply IH | discriminate].
Qed.

Lemma HTTPAdapter_send_Ret_unforced net o m u h st k resp :
  max_retries (session (self st)) = retry_strategy k ->
  m = "GET" \/ m = "POST" ->
  fst (HTTPAdapter_send net o m u h st) = Ret resp ->
  forced (status_code resp) = false.
Proof.
  intros Hmr Hm. unfold HTTPAdapter_send.
  destruct (valid_timeout _); cbn [negb]; [| discriminate].
  cbn [set_session self session set_poolmanager connection_from_host
       max_retries].
  rewrite Hmr.
  match goal with
  | |- context [urlopen ?n ?d ?hp ?m ?u ?h ?r ?s] =>
      pose proof (urlopen_Ret_unforced n d hp m u h r s) as HU;
      destruct (urlopen n d hp m u h r s) as [[a | e] st']
  end; [| discriminate].
  cbn [fst]. intros [= <-]. cbn [status_code]. apply HU; try reflexivity.
  by destruct Hm as [-> | ->].
Qed.

Lemma rebuild_method_verb m st_code :
  m = "GET" \/ m = "POST" ->
  rebuild_method m st_code = "GET" \/ rebuild_method m st_code = "POST".
Proof.
  intros [-> | ->]; unfold rebuild_method; repeat case_match; auto.
Qed.

Lemma resolve_redirects_unforced net n o h k :
  forall m resp0 st resp,
    max_retries (session (self st)) = retry_strategy k ->
    m = "GET" \/ m = "POST" ->
    forced (status_code resp0) = false ->
    fst (resolve_redirects net n o m h resp0 st) = Ret resp ->
    forced (status_code resp) = false.
Proof.
  induction n as [|n IH]; intros m resp0 st resp Hmr Hm H0;
    cbn [resolve_redirects].
  { destruct (get_redirect_target resp0); [discriminate |]. by intros [= <-]. }
  destruct (get_redirect_target resp0) as [u'|]; [| by intros [= <-]].
  pose proof (rebuild_method_verb m (status_code resp0) Hm) as Hm'.
  pose proof (HTTPAdapter_send_Ret_unforced net o
                (rebuild_method m (status_code resp0)) u' h st k) as HS.
  pose proof (grows_HTTPAdapter_send (fun _ => True) ltac:(done) h ltac:(done)
                net o (rebuild_method m (status_code resp0)) u' st)
    as [Hg _].
  apply config_fields in Hg as (_&_&_&_&_&_&Hg).
  destruct (HTTPAdapter_send net o _ u' h st) as [[resp' | e] st'];
    cbn [fst snd] in *; [| discriminate].
  apply IH; [congruence | done | by apply HS].
Qed.

Lemma _request_unforced net m u kw st k resp :
  max_retries (session (self st)) = retry_strategy k ->
  m = "GET" \/ m = "POST" ->
  fst (_request net m u kw st) = Ret (Some resp) ->
  forced (status_code resp) = false.
Proof.
  intros Hmr Hm. rewrite _request_eq.
  assert (forall r, fst (Session_request net m u (request_kwargs (self st) kw)
                           (before_send_log m u kw st)) = Ret r ->
                    forced (status_code r) = false) as HS.
  { intros r. unfold Session_request. destruct (accepted _); [| discriminate].
    cbn [negb]. cbv zeta.
    destruct (prepare_headers _ _) as [hdrs | e]; [| discriminate].
    destruct (request_proxies _) as [pg | e]; [| discriminate].
    rewrite !before_send_log_self.
    assert (upper m = m) as -> by (by destruct Hm as [-> | ->]).
    match goal with
    | |- context [HTTPAdapter_send net ?o ?m' ?u' ?h ?s] =>
        pose proof (HTTPAdapter_send_Ret_unforced net o m' u' h s k) as HA;
        pose proof (grows_HTTPAdapter_send (fun _ => True) ltac:(done) h
                      ltac:(done) net o m' u' s) as [Hg _];
        destruct (HTTPAdapter_send net o m' u' h s) as [[r0 | e] st']
    end; cbn [fst snd] in *; [| discriminate].
    rewrite before_send_log_self in HA, Hg.
    apply config_fields in Hg as (_&_&_&_&_&_&Hg).
    specialize (HA r0 Hmr Hm eq_refl).
    destruct (truthy _); [| by intros [= <-]].
    apply (resolve_redirects_unforced net _ _ _ k); [congruence | done | done]. }
  destruct (Session_request net m u _ _) as [[r0 | e] st']; cbn [fst snd] in *.
  - specialize (HS r0 eq_refl). unfold set_elapsed_seconds.
    destruct (elapsed r0); cbn [fst]; [| discriminate].
    by intros [= <-].
  - cbn [fst]. unfold _request_except. repeat case_match; discriminate.
Qed.

(** X11: [get] and [post] never hand an answer with status 429, 500, 502,
    503 or 504 to the caller, whatever the target does and however many
    retries are configured: such an answer is retried, and when the
    retries are used up the call returns [None]. *)
Theorem retried_status_is_never_returned net u d kw st k resp :
  max_retries (session (self st)) = retry_strategy k ->
  fst (get net u kw st) = Ret (Some resp) \/
  fst (post net u d kw st) = Ret (Some resp) ->
  status_code resp ∉ [429; 500; 502; 503; 504].
Proof.
  intros Hmr H.
  assert (forced (status_code resp) = false) as Hf.
  { revert H. unfold get, post.
    destruct (binds_twice kw); [by intros [H | H] |].
    intros [H | H].
    - exact (_request_unforced net "GET" u kw st k resp Hmr
               (or_introl eq_refl) H).
    - exact (_request_unforced net "POST" u _ st k resp Hmr
               (or_intror eq_refl) H). }
  intros Hin. apply not_true_iff_false in Hf. apply Hf.
  repeat (apply elem_of_cons in Hin as [-> | Hin]; [reflexivity |]).
  by apply elem_of_nil in Hin.
Qed.

Lemma retried_status_is_never_returned_witness :
  exists resp,
    fst (get (always 200) target ∅ (start default_client)) = Ret (Some resp) /\
    status_code resp ∉ [429; 500; 502; 503; 504].
Proof.
  eexists. split; [by vm_compute |].
  eapply (retried_status_is_never_returned (always 200) target PNone ∅
            (start default_client) 3); [reflexivity |].
  left. by vm_compute.
Defined.
